(** * The Google News redirect resolver ([news-resolver.py])

    A shallow embedding of the script: Python [str] values are lists of
    code points, [list] values are Rocq lists, exceptions are an explicit
    result type, and the two HTTP calls go through a transport record so
    that a run leaves a trace of the requests it made and of what it
    printed.  Under the transport a response arrives as bytes with the
    encoding its header names, from which the library decodes the text
    the script reads. *)

From Stdlib Require Import Ascii String DecimalString DecimalFacts DecimalPos.
From Stdlib Require Import ZArith NArith Bool List Lia.
Import ListNotations.

Set Implicit Arguments.

(** ** Python strings *)

Module PyStr.

(** A [str] is a sequence of Unicode code points. *)
Definition char := N.
Definition str := list char.

(** The literal [u "abc"] is the [str] with the code points of the ASCII
    text. *)
Definition u (s : string) : str := map N_of_ascii (list_ascii_of_string s).
Arguments u s%_string.

(** The double quote, code point 34, written apart so that no literal
    needs an escape. *)
Definition DQ : char := 34%N.
Definition BACKSLASH : char := 92%N.

(** [quoted "a"] is the three-character text made of a, between double quotes. *)
Definition quoted (s : string) : str := DQ :: u s ++ [DQ].
Arguments quoted s%_string.

Definition str_eq_dec : forall a b : str, {a = b} + {a <> b} :=
  list_eq_dec N.eq_dec.

(** [s.startswith(p)] *)
Fixpoint starts_with (p s : str) : bool :=
  match p, s with
  | [], _ => true
  | _ :: _, [] => false
  | a :: p', b :: s' => N.eqb a b && starts_with p' s'
  end.

(** [p in s]: some position of [s] starts a copy of [p]. *)
Fixpoint occurs (p s : str) : bool :=
  starts_with p s ||
  match s with
  | [] => false
  | _ :: s' => occurs p s'
  end.

(** The scan of [str.replace] for a non-empty [old]: left to right, a copy
    of [old] found at the cursor is replaced by [new] and the cursor jumps
    behind it; [skip] counts the characters of that copy still to jump. *)
Fixpoint replace_scan (old new : str) (skip : nat) (s : str) : str :=
  match s with
  | [] => []
  | c :: s' =>
      match skip with
      | S k => replace_scan old new k s'
      | O =>
          if starts_with old s
          then new ++ replace_scan old new (length old - 1) s'
          else c :: replace_scan old new 0 s'
      end
  end.

(** [s.replace(old, new)].  With an empty [old] Python puts [new] before
    every character and at the end. *)
Definition str_replace (old new s : str) : str :=
  match old with
  | [] => new ++ flat_map (fun c => c :: new) s
  | _ :: _ => replace_scan old new 0 s
  end.

(** [sep.join(segs)] *)
Fixpoint join (sep : str) (segs : list str) : str :=
  match segs with
  | [] => []
  | s :: rest =>
      match rest with
      | [] => s
      | _ :: _ => s ++ sep ++ join sep rest
      end
  end.

(** A pattern has a border when a proper non-empty prefix of it is also a
    suffix; [borderless] tests that there is none. *)
Definition borderless (p : str) : bool :=
  forallb
    (fun k => if str_eq_dec (firstn k p) (skipn (length p - k) p)
              then false else true)
    (seq 1 (length p - 1)).

End PyStr.
Import PyStr.

(** ** Python sequence slicing and indexing *)

Module PySeq.

Section Slices.
Variable A : Type.

(** [PySlice_AdjustIndices] for step 1: a negative bound counts from the
    end, and every bound is clipped to [0 .. len]. *)
Definition adjust (len i : Z) : Z :=
  if (i <? 0)%Z then Z.max 0 (i + len) else Z.min i len.

(** [l[start:stop]]; [None] is an omitted bound. *)
Definition py_slice (start stop : option Z) (l : list A) : list A :=
  let len := Z.of_nat (length l) in
  let lo := match start with Some i => adjust len i | None => 0%Z end in
  let hi := match stop with Some i => adjust len i | None => len end in
  firstn (Z.to_nat (hi - lo)) (skipn (Z.to_nat lo) l).

(** [obj[:-6] + obj[-2:]] on a sequence. *)
Definition reshape (obj : list A) : list A :=
  py_slice None (Some (-6)%Z) obj ++ py_slice (Some (-2)%Z) None obj.

End Slices.

End PySeq.
Import PySeq.

(** ** Exceptions *)

Module Py.

(** The exception classes the script can raise.  [RequestException] stands
    for whatever the HTTP library raises (connection errors, timeouts),
    with the library's description of it. *)
Inductive exn :=
| AttributeError
| TypeError
| IndexError
| KeyError
| JSONDecodeError
| RequestException (what : str).

Inductive result (A : Type) :=
| Ok (a : A)
| Raise (e : exn).
Arguments Ok {A} a.
Arguments Raise {A} e.

Definition bind_result {A B} (r : result A) (k : A -> result B) : result B :=
  match r with
  | Ok a => k a
  | Raise e => Raise e
  end.

End Py.
Import Py.

(** ** The [json] module *)

Module Json.

(** Python floats are kept abstract: the decoder hands the text of a
    number literal to [float], and the encoder prints a float with
    [float.__repr__], or as [NaN], [Infinity], [-Infinity]. *)
Class FloatModel := {
  PyFloat : Type;
  parse_float : str -> PyFloat;
  NaN : PyFloat;
  PosInf : PyFloat;
  NegInf : PyFloat;
  floatstr : PyFloat -> str
}.

(** A parser that returns a proper suffix of its input. *)
Definition shrinks {A} (scan : str -> option (A * str)) : Prop :=
  forall s v r, scan s = Some (v, r) -> length r < length s.

Section Values.
Context {FM : FloatModel}.

(** The Python objects [json.loads] builds.  A [dict] keeps its keys in
    insertion order; its keys are always [str] here. *)
#[warnings="-register-all"]
Inductive value :=
| VNone
| VBool (b : bool)
| VInt (z : Z)
| VFloat (f : PyFloat)
| VStr (s : str)
| VList (items : list value)
| VDict (pairs : list (str * value)).

(** *** Encoder: [json.dumps] with its default arguments *)

Definition hex_digit (n : N) : char :=
  if (n <? 10)%N then (48 + n)%N else (87 + n)%N.

(** ['\\u{0:04x}'.format(n)] *)
Definition u_escape (n : N) : str :=
  [BACKSLASH; 117%N;
   hex_digit ((n / 4096) mod 16)%N; hex_digit ((n / 256) mod 16)%N;
   hex_digit ((n / 16) mod 16)%N; hex_digit (n mod 16)%N].

(** One character under [ensure_ascii]: the short escapes, the printable
    ASCII characters as they are, and [\uXXXX] for the rest, as a
    surrogate pair above the basic plane. *)
Definition escape_char (c : char) : str :=
  if (c =? 34)%N then [BACKSLASH; 34%N]
  else if (c =? 92)%N then [BACKSLASH; 92%N]
  else if (c =? 10)%N then [BACKSLASH; 110%N]
  else if (c =? 13)%N then [BACKSLASH; 114%N]
  else if (c =? 9)%N then [BACKSLASH; 116%N]
  else if (c =? 8)%N then [BACKSLASH; 98%N]
  else if (c =? 12)%N then [BACKSLASH; 102%N]
  else if ((32 <=? c) && (c <=? 126))%N then [c]
  else if (c <? 65536)%N then u_escape c
  else
    let n := (c - 65536)%N in
    u_escape (N.lor 55296 (N.land (N.shiftr n 10) 1023)) ++
    u_escape (N.lor 56320 (N.land n 1023)).

Definition encode_basestring_ascii (s : str) : str :=
  DQ :: flat_map escape_char s ++ [DQ].

(** [int.__repr__] *)
Definition int_repr (z : Z) : str := u (NilEmpty.string_of_int (Z.to_int z)).

(** The text of an object.  The interpreter's limits are left out: on
    an integer of more digits than [sys.get_int_max_str_digits()] (4300
    by default since CPython 3.11) and on an object nested deeper than
    the recursion limit allows, [json.dumps] raises where this gives a
    text. *)
Fixpoint json_dumps (v : value) : str :=
  match v with
  | VNone => u "null"
  | VBool true => u "true"
  | VBool false => u "false"
  | VInt z => int_repr z
  | VFloat f => floatstr f
  | VStr s => encode_basestring_ascii s
  | VList items => u "[" ++ join (u ", ") (map json_dumps items) ++ u "]"
  | VDict pairs =>
      u "{" ++
      join (u ", ")
        (map (fun kv : str * value => let (k, x) := kv in
                        encode_basestring_ascii k ++ u ": " ++ json_dumps x)
             pairs) ++
      u "}"
  end.

(** *** Decoder: [json.loads] with its default arguments *)

Definition is_ws (c : char) : bool :=
  ((c =? 32) || (c =? 9) || (c =? 10) || (c =? 13))%N.

Fixpoint skip_ws (s : str) : str :=
  match s with
  | [] => []
  | c :: s' => if is_ws c then skip_ws s' else s
  end.

Definition is_digit (c : char) : bool := ((48 <=? c) && (c <=? 57))%N.

Definition hex_value (c : char) : option N :=
  if is_digit c then Some (c - 48)%N
  else if ((97 <=? c) && (c <=? 102))%N then Some (c - 87)%N
  else if ((65 <=? c) && (c <=? 70))%N then Some (c - 55)%N
  else None.

Definition decode_uXXXX (a b c d : char) : option N :=
  match hex_value a, hex_value b, hex_value c, hex_value d with
  | Some x, Some y, Some z, Some w => Some (((x * 16 + y) * 16 + z) * 16 + w)%N
  | _, _, _, _ => None
  end.

(** The [BACKSLASH] table of the decoder. *)
Definition unescape (esc : char) : option char :=
  if (esc =? 34)%N then Some 34%N
  else if (esc =? 92)%N then Some 92%N
  else if (esc =? 47)%N then Some 47%N
  else if (esc =? 98)%N then Some 8%N
  else if (esc =? 102)%N then Some 12%N
  else if (esc =? 110)%N then Some 10%N
  else if (esc =? 114)%N then Some 13%N
  else if (esc =? 116)%N then Some 9%N
  else None.

Definition is_high_surrogate (n : N) : bool := ((55296 <=? n) && (n <=? 56319))%N.
Definition is_low_surrogate (n : N) : bool := ((56320 <=? n) && (n <=? 57343))%N.
Definition join_surrogates (hi lo : N) : N :=
  (65536 + N.lor (N.shiftl (hi - 55296) 10) (lo - 56320))%N.

Definition push (c : char) (r : option (str * str)) : option (str * str) :=
  match r with
  | Some (t, rest) => Some (c :: t, rest)
  | None => None
  end.

(** [scanstring] in strict mode, from behind the opening quote: the
    decoded text and what follows the closing quote, or [None] where the
    decoder raises. *)
Fixpoint scanstring (s : str) : option (str * str) :=
  match s with
  | [] => None
  | c :: s1 =>
      if (c =? 34)%N then Some ([], s1)
      else if (c =? 92)%N then
        match s1 with
        | [] => None
        | esc :: s2 =>
            if (esc =? 117)%N then
              match s2 with
              | h1 :: h2 :: h3 :: h4 :: s3 =>
                  match decode_uXXXX h1 h2 h3 h4 with
                  | None => None
                  | Some uni =>
                      if is_high_surrogate uni then
                        match s3 with
                        | b :: m :: g1 :: g2 :: g3 :: g4 :: s4 =>
                            if ((b =? 92) && (m =? 117))%N then
                              match decode_uXXXX g1 g2 g3 g4 with
                              | None => None
                              | Some uni2 =>
                                  if is_low_surrogate uni2
                                  then push (join_surrogates uni uni2) (scanstring s4)
                                  else push uni (scanstring s3)
                              end
                            else push uni (scanstring s3)
                        | _ => push uni (scanstring s3)
                        end
                      else push uni (scanstring s3)
                  end
              | _ => None
              end
            else
              match unescape esc with
              | None => None
              | Some ch => push ch (scanstring s2)
              end
        end
      else if (c <? 32)%N then None
      else push c (scanstring s1)
  end.

(** [NUMBER_RE]: an integer part (an optional minus sign, then a lone 0
    or a digit from 1 to 9 and further digits), an optional fraction (a
    dot and at least one digit) and an optional exponent (e or E, an
    optional sign, at least one digit). *)
Fixpoint span_digits (s : str) : str * str :=
  match s with
  | [] => ([], [])
  | c :: s' =>
      if is_digit c then let (ds, r) := span_digits s' in (c :: ds, r)
      else ([], s)
  end.

Definition match_integer (s : str) : option (str * str) :=
  let (sign, s1) :=
    match s with
    | c :: s' => if (c =? 45)%N then ([c], s') else ([], s)
    | [] => ([], s)
    end in
  match s1 with
  | [] => None
  | c :: s2 =>
      if (c =? 48)%N then Some (sign ++ [c], s2)
      else if is_digit c then
        let (ds, r) := span_digits s2 in Some (sign ++ c :: ds, r)
      else None
  end.

Definition match_frac (s : str) : str * str :=
  match s with
  | c :: s1 =>
      if (c =? 46)%N then
        match span_digits s1 with
        | ([], _) => ([], s)
        | (ds, r) => (c :: ds, r)
        end
      else ([], s)
  | [] => ([], s)
  end.

Definition match_exp (s : str) : str * str :=
  match s with
  | e :: s1 =>
      if ((e =? 101) || (e =? 69))%N then
        let (sign, s2) :=
          match s1 with
          | c :: s' => if ((c =? 45) || (c =? 43))%N then ([c], s') else ([], s1)
          | [] => ([], s1)
          end in
        match span_digits s2 with
        | ([], _) => ([], s)
        | (ds, r) => (e :: sign ++ ds, r)
        end
      else ([], s)
  | [] => ([], s)
  end.

(** [int(text)] on the text of an integer literal (without the limit on
    the number of digits that CPython has since 3.11). *)
Definition digits_value (ds : str) : Z :=
  fold_left (fun acc c => (acc * 10 + (Z.of_N c - 48))%Z) ds 0%Z.

Definition parse_int (text : str) : Z :=
  match text with
  | c :: ds => if (c =? 45)%N then (- digits_value ds)%Z else digits_value text
  | [] => 0%Z
  end.

Definition match_number (s : str) : option (value * str) :=
  match match_integer s with
  | None => None
  | Some (integer, s1) =>
      let (frac, s2) := match_frac s1 in
      let (exp, s3) := match_exp s2 in
      match frac, exp with
      | [], [] => Some (VInt (parse_int integer), s3)
      | _, _ => Some (VFloat (parse_float (integer ++ frac ++ exp)), s3)
      end
  end.

(** [dict(pairs)]: a key met again keeps its place and takes the new
    value. *)
Fixpoint dict_set (k : str) (v : value) (d : list (str * value)) : list (str * value) :=
  match d with
  | [] => [(k, v)]
  | (k', v') :: d' =>
      if str_eq_dec k k' then (k, v) :: d' else (k', v') :: dict_set k v d'
  end.

Definition dict_of_pairs (pairs : list (str * value)) : list (str * value) :=
  fold_left (fun d kv => dict_set (fst kv) (snd kv) d) pairs [].

Section Containers.
(** [scan_once] for the values nested one level down. *)
Variable scan : str -> option (value * str).

(** The loop of [JSONArray], from the start of an element; [n] bounds the
    number of elements. *)
Fixpoint array_loop (n : nat) (s : str) : option (list value * str) :=
  match n with
  | O => None
  | S n' =>
      match scan s with
      | None => None
      | Some (v, s1) =>
          match skip_ws s1 with
          | [] => None
          | c :: s2 =>
              if (c =? 93)%N then Some ([v], s2)
              else if (c =? 44)%N then
                match array_loop n' (skip_ws s2) with
                | Some (vs, r) => Some (v :: vs, r)
                | None => None
                end
              else None
          end
      end
  end.

(** [JSONArray], from behind the opening bracket. *)
Definition parse_array (s : str) : option (value * str) :=
  match skip_ws s with
  | [] => None
  | c :: s1 =>
      if (c =? 93)%N then Some (VList [], s1)
      else
        match array_loop (S (length s)) (skip_ws s) with
        | Some (vs, r) => Some (VList vs, r)
        | None => None
        end
  end.

(** The loop of [JSONObject], from behind the opening quote of a key. *)
Fixpoint object_loop (n : nat) (s : str) : option (list (str * value) * str) :=
  match n with
  | O => None
  | S n' =>
      match scanstring s with
      | None => None
      | Some (key, s1) =>
          match skip_ws s1 with
          | [] => None
          | colon :: s2 =>
              if (colon =? 58)%N then
                match scan (skip_ws s2) with
                | None => None
                | Some (v, s3) =>
                    match skip_ws s3 with
                    | [] => None
                    | c :: s4 =>
                        if (c =? 125)%N then Some ([(key, v)], s4)
                        else if (c =? 44)%N then
                          match skip_ws s4 with
                          | [] => None
                          | q :: s5 =>
                              if (q =? 34)%N then
                                match object_loop n' s5 with
                                | Some (kvs, r) => Some ((key, v) :: kvs, r)
                                | None => None
                                end
                              else None
                          end
                        else None
                    end
                end
              else None
          end
      end
  end.

(** [JSONObject], from behind the opening brace. *)
Definition parse_object (s : str) : option (value * str) :=
  match skip_ws s with
  | [] => None
  | c :: s1 =>
      if (c =? 125)%N then Some (VDict [], s1)
      else if (c =? 34)%N then
        match object_loop (S (length s)) s1 with
        | Some (kvs, r) => Some (VDict (dict_of_pairs kvs), r)
        | None => None
        end
      else None
  end.

End Containers.

(** [scan_once]; [depth] bounds the nesting of arrays and objects. *)
Fixpoint scan_once (depth : nat) (s : str) : option (value * str) :=
  match depth with
  | O => None
  | S d =>
      match s with
      | [] => None
      | c :: s1 =>
          if (c =? 34)%N then
            match scanstring s1 with
            | Some (t, r) => Some (VStr t, r)
            | None => None
            end
          else if (c =? 123)%N then parse_object (scan_once d) s1
          else if (c =? 91)%N then parse_array (scan_once d) s1
          else if starts_with (u "null") s then Some (VNone, skipn 4 s)
          else if starts_with (u "true") s then Some (VBool true, skipn 4 s)
          else if starts_with (u "false") s then Some (VBool false, skipn 5 s)
          else
            match match_number s with
            | Some r => Some r
            | None =>
                if starts_with (u "NaN") s then Some (VFloat NaN, skipn 3 s)
                else if starts_with (u "Infinity") s then Some (VFloat PosInf, skipn 8 s)
                else if starts_with (u "-Infinity") s then Some (VFloat NegInf, skipn 9 s)
                else None
            end
      end
  end.

(** [json.loads(s)] for a [str]: no byte order mark, one value between
    optional white space, nothing after it.  A text of [n] characters
    nests fewer than [n] levels, so the depth bound is never what fails.
    The interpreter's limits are left out: CPython's own recursion limit
    on deeply nested texts, and its limit on the digits of an integer
    (4300 by default since CPython 3.11), where [json.loads] raises a
    [RecursionError] or a [ValueError] and this gives the object. *)
Definition json_loads (s : str) : result value :=
  if starts_with [65279%N] s then Raise JSONDecodeError
  else
    match scan_once (S (length s)) (skip_ws s) with
    | None => Raise JSONDecodeError
    | Some (v, rest) =>
        match skip_ws rest with
        | [] => Ok v
        | _ :: _ => Raise JSONDecodeError
        end
    end.

(** [json.loads(x)] for an object [x]: only a [str] is accepted (a JSON
    text never decodes to [bytes]). *)
Definition json_loads_obj (x : value) : result value :=
  match x with
  | VStr s => json_loads s
  | _ => Raise TypeError
  end.

(** *** Subscripts *)

(** [x[i]] for a literal index [i >= 0].  A [dict] built from JSON has
    only [str] keys, so an [int] key is never found. *)
Definition py_index (x : value) (i : nat) : result value :=
  match x with
  | VList l =>
      match nth_error l i with
      | Some y => Ok y
      | None => Raise IndexError
      end
  | VStr s =>
      match nth_error s i with
      | Some c => Ok (VStr [c])
      | None => Raise IndexError
      end
  | VDict _ => Raise KeyError
  | _ => Raise TypeError
  end.

(** [obj[:-6] + obj[-2:]].  Lists and strings can be sliced, and the two
    slices, of the type of [obj], are then concatenated.  A [dict] has no
    slice among its keys (a [TypeError] before CPython 3.12, where a slice
    is not hashable, a [KeyError] since); the other objects are not
    subscriptable. *)
Definition reshape_obj (obj : value) : result value :=
  match obj with
  | VList l => Ok (VList (reshape l))
  | VStr s => Ok (VStr (reshape s))
  | _ => Raise TypeError
  end.

End Values.

End Json.
Import Json.

(** ** The script *)

Module Resolver.

(** What [requests] hands back: the script reads only [text]. *)
Record Response := {
  status_code : Z;
  reason : str;
  text : str
}.

(** The two calls the script makes on the network.  A call returns a
    response, whatever its status, or raises. *)
Record Transport := {
  http_get : str -> result Response;
  http_post : str -> list (str * str) -> list (str * str) -> result Response
}.

(** The same transport with other status codes on its responses. *)
Definition set_status (code : Z) (r : Response) : Response :=
  {| status_code := code; reason := reason r; text := text r |}.

Definition map_result {A B} (f : A -> B) (r : result A) : result B :=
  match r with
  | Ok a => Ok (f a)
  | Raise e => Raise e
  end.

Definition with_status (get_code post_code : Z) (net : Transport) : Transport := {|
  http_get := fun target => map_result (set_status get_code) (http_get net target);
  http_post := fun target hdrs data =>
    map_result (set_status post_code) (http_post net target hdrs data)
|}.

(** Python [bytes] *)
Definition bytes := list Byte.byte.

(** A response as it arrives.  [requests] keeps the body as [content]
    and sets [encoding] from the Content-Type header: the charset the
    header names, [ISO-8859-1] for a text type that names none, [utf-8]
    for JSON that names none, and [None] otherwise. *)
Record Message := {
  message_status : Z;
  message_reason : str;
  encoding : option str;
  content : bytes
}.

(** The interpreter's codecs: [decode name b] is
    [str(b, name, errors='replace')], [None] where the name is that of no
    codec ([LookupError]); [decode_default b] is
    [str(b, errors='replace')]; and [apparent_encoding] is the encoding
    the library guesses from the bytes, if it guesses one. *)
Class Codecs := {
  decode : str -> bytes -> option str;
  decode_default : bytes -> str;
  apparent_encoding : bytes -> option str
}.

(** [Response.text]: the empty string for an empty body; otherwise the
    body decoded with [encoding], or with the guessed encoding where the
    header gave none, and decoded blindly where that names no codec.
    Bytes that do not decode are replaced: reading [text] never raises. *)
Definition text_of {CD : Codecs} (m : Message) : str :=
  match content m with
  | [] => []
  | _ :: _ =>
      let name :=
        match encoding m with
        | Some e => Some e
        | None => apparent_encoding (content m)
        end in
      match name with
      | Some e =>
          match decode e (content m) with
          | Some s => s
          | None => decode_default (content m)
          end
      | None => decode_default (content m)
      end
  end.

(** The response object the script is handed. *)
Definition received {CD : Codecs} (m : Message) : Response :=
  {| status_code := message_status m; reason := message_reason m; text := text_of m |}.

(** The network under the library: what the two calls receive, or the
    exception they raise. *)
Record Server := {
  serve_get : str -> result Message;
  serve_post : str -> list (str * str) -> list (str * str) -> result Message
}.

Definition over {CD : Codecs} (srv : Server) : Transport := {|
  http_get := fun target => map_result received (serve_get srv target);
  http_post := fun target hdrs data =>
    map_result received (serve_post srv target hdrs data)
|}.

(** An element as [BeautifulSoup] gives it: its name and its attributes. *)
Record Tag := {
  tag_name : str;
  tag_attrs : list (str * str)
}.

(** [BeautifulSoup(markup, 'html.parser').select_one(selector)]: the
    first element the selector matches, or [None]. *)
Class Markup := {
  select_one : str -> str -> option Tag
}.

(** [tag.get(key)] *)
Fixpoint attr_get (attrs : list (str * str)) (key : str) : option str :=
  match attrs with
  | [] => None
  | (k, v) :: rest => if str_eq_dec k key then Some v else attr_get rest key
  end.

Definition tag_get (t : Tag) (key : str) : option str :=
  attr_get (tag_attrs t) key.

Section Program.
Context {FM : FloatModel} {ML : Markup}.

(** What a run does that can be seen from outside. *)
Inductive event :=
| EvGet (target : str)
| EvPost (target : str) (hdrs : list (str * str)) (data : list (str * str))
| EvPrint (x : value).

(** A computation reads and extends the trace, and returns or raises. *)
Definition Run (A : Type) : Type := list event -> result A * list event.

Definition ret {A} (a : A) : Run A := fun tr => (Ok a, tr).

Definition bind {A B} (m : Run A) (k : A -> Run B) : Run B :=
  fun tr =>
    match m tr with
    | (Ok a, tr') => k a tr'
    | (Raise e, tr') => (Raise e, tr')
    end.

Definition lift {A} (r : result A) : Run A := fun tr => (r, tr).

Notation "x <- m ;; k" := (bind m (fun x => k))
  (at level 61, m at next level, right associativity).

Variable net : Transport.

Definition requests_get (target : str) : Run Response :=
  fun tr => (http_get net target, tr ++ [EvGet target]).

Definition requests_post (target : str) (hdrs data : list (str * str)) : Run Response :=
  fun tr => (http_post net target hdrs data, tr ++ [EvPost target hdrs data]).

(** [print(x)]: for a [str] the text written is the string itself.
    Writing is taken to succeed: a closed output, or a character the
    encoding of the output cannot write, is left out. *)
Definition print (x : value) : Run unit :=
  fun tr => (Ok tt, tr ++ [EvPrint x]).

Definition google_rss_url : str :=
  u "https://news.google.com/rss/articles/CBMiogFBVV95cUxQLUFubVFtajlobFdKQllBb1JBRDNPNm8yRE51a0N2STl3SGd6eFY2cEVMdllnM1VwNGRBbWxsa0FLUGViaHNaN2p2R2oyMWFsNklvM3pFdXZFWjNNT1dNN2lrclRzWTlLOEpOLXYzZzdETnFMS0ZUZktvZTREcmU0ZzZucmFYZk0tR1gzTVlEUWh4dXVpMGMxSWltb2x2enl1TEE?oc=5".

(** The two patterns the script rewrites, and what replaces the first. *)
Definition TOKEN_PREFIX : str := u "%.@.".
Definition GARTURLREQ : str := u "[" ++ quoted "garturlreq" ++ u ",".
Definition XSSI_PREFIX : str := u ")]}'".

(** [response.text.replace(")]}'", "")] *)
Definition strip_xssi (body : str) : str := str_replace XSSI_PREFIX [] body.

(** [data.replace('%.@.', '["garturlreq",')] *)
Definition rewrite_token (data : str) : str := str_replace TOKEN_PREFIX GARTURLREQ data.

(** Line 8: [select_one('c-wiz[data-p]').get('data-p')].  [None] has no
    [get]. *)
Definition data_of (markup : str) : result (option str) :=
  match select_one markup (u "c-wiz[data-p]") with
  | None => Raise AttributeError
  | Some tag => Ok (tag_get tag (u "data-p"))
  end.

(** Line 9: [json.loads(data.replace('%.@.', '["garturlreq",'))].  [None]
    has no [replace]. *)
Definition obj_of (data : option str) : result value :=
  match data with
  | None => Raise AttributeError
  | Some d => json_loads (rewrite_token d)
  end.

(** The list [[[['Fbv4je', inner, 'null', 'generic']]]] of line 12. *)
Definition envelope (inner : str) : value :=
  VList [VList [VList [VStr (u "Fbv4je"); VStr inner; VStr (u "null"); VStr (u "generic")]]].

(** Lines 11 to 13: the form data, a [dict] with the one key [f.req]. *)
Definition payload_of (obj : value) : result (list (str * str)) :=
  bind_result (reshape_obj obj) (fun inner =>
  Ok [(u "f.req", json_dumps (envelope (json_dumps inner)))]).

(** Lines 8 to 13 as a function of the page that was fetched. *)
Definition form_data_of (markup : str) : result (list (str * str)) :=
  bind_result (data_of markup) (fun data =>
  bind_result (obj_of data) payload_of).

(** The page has a token: the element the selector finds carries a
    non-empty [data-p]. *)
Definition has_token (markup : str) : bool :=
  match select_one markup (u "c-wiz[data-p]") with
  | None => false
  | Some tag =>
      match tag_get tag (u "data-p") with
      | None | Some [] => false
      | Some (_ :: _) => true
      end
  end.

Definition headers : list (str * str) :=
  [(u "content-type", u "application/x-www-form-urlencoded;charset=UTF-8");
   (u "user-agent", u "Mozilla/5.0 (Windows NT 10.0; Win64; x64) AppleWebKit/537.36 (KHTML, like Gecko) Chrome/132.0.0.0 Safari/537.36")].

Definition url : str := u "https://news.google.com/_/DotsSplashUi/data/batchexecute".

(** Line 22: [json.loads(response.text.replace(")]}'", ""))[0][2]]. *)
Definition array_string_of (body : str) : result value :=
  bind_result (json_loads (strip_xssi body)) (fun x =>
  bind_result (py_index x 0) (fun x0 =>
  py_index x0 2)).

(** Lines 22 and 23: [json.loads(array_string)[1]]. *)
Definition article_url_of (body : str) : result value :=
  bind_result (array_string_of body) (fun array_string =>
  bind_result (json_loads_obj array_string) (fun y =>
  py_index y 1)).

(** The script, top to bottom. *)
Definition main : Run unit :=
  resp <- requests_get google_rss_url ;;
  data <- lift (data_of (text resp)) ;;
  obj <- lift (obj_of data) ;;
  payload <- lift (payload_of obj) ;;
  response <- requests_post url headers payload ;;
  article_url <- lift (article_url_of (text response)) ;;
  print article_url.

(** A run from the empty trace. *)
Definition run : result unit * list event := main [].

(** The extraction as the specification words it: the body is the prefix
    followed by a remainder; the remainder is parsed, then element 0,
    element 2 of that, parsed again, element 1. *)
Definition article_url_spec (remainder : str) : result value :=
  bind_result (json_loads remainder) (fun x =>
  bind_result (py_index x 0) (fun x0 =>
  bind_result (py_index x0 2) (fun array_string =>
  bind_result (json_loads_obj array_string) (fun y =>
  py_index y 1)))).

End Program.

(** The error classes of the specification (its section 7): what the
    transport raises is a network error, every other failure of the run
    comes from reading the page or the response and is a parse error. *)
Inductive spec_error := NetworkError | ParseError.

Definition spec_error_class (e : exn) : spec_error :=
  match e with
  | RequestException _ => NetworkError
  | _ => ParseError
  end.

End Resolver.
Import Resolver.

(** ** Instances for concrete runs *)

Module Scenario.

(** Floats kept as the text of their literal. *)
#[export] Instance TextFloats : FloatModel := {|
  PyFloat := str;
  parse_float := fun t => t;
  NaN := u "NaN";
  PosInf := u "Infinity";
  NegInf := u "-Infinity";
  floatstr := fun t => t
|}.

(** A reader of start tags, enough for pages made of plain elements: names
    in lower case, attribute values bare or between quotes, and the
    character references of the five reserved characters. *)
Inductive mstate :=
| MText
| MName (acc : str)
| MAttrs (name : str) (attrs : list (str * str))
| MAttrName (name : str) (attrs : list (str * str)) (acc : str)
| MAttrEq (name : str) (attrs : list (str * str)) (key : str)
| MValue (name : str) (attrs : list (str * str)) (key : str)
         (quote : option char) (acc : str).

Definition lower (c : char) : char :=
  if ((65 <=? c) && (c <=? 90))%N then (c + 32)%N else c.

Definition unescape_refs (v : str) : str :=
  str_replace (u "&amp;") (u "&")
    (str_replace (u "&#39;") (u "'")
      (str_replace (u "&gt;") (u ">")
        (str_replace (u "&lt;") (u "<")
          (str_replace (u "&quot;") [DQ] v)))).

Definition mk_tag (name : str) (attrs : list (str * str)) : Tag :=
  {| tag_name := name; tag_attrs := attrs |}.

Fixpoint start_tags (st : mstate) (s : str) : list Tag :=
  match s with
  | [] => []
  | c :: s' =>
      match st with
      | MText => if (c =? 60)%N then start_tags (MName []) s' else start_tags MText s'
      | MName acc =>
          if is_ws c then start_tags (MAttrs (rev acc) []) s'
          else if (c =? 62)%N then mk_tag (rev acc) [] :: start_tags MText s'
          else if (c =? 47)%N then start_tags MText s'
          else start_tags (MName (lower c :: acc)) s'
      | MAttrs name attrs =>
          if is_ws c || (c =? 47)%N then start_tags st s'
          else if (c =? 62)%N then mk_tag name attrs :: start_tags MText s'
          else start_tags (MAttrName name attrs [lower c]) s'
      | MAttrName name attrs acc =>
          if (c =? 61)%N then start_tags (MAttrEq name attrs (rev acc)) s'
          else if is_ws c then start_tags (MAttrs name (attrs ++ [(rev acc, [])])) s'
          else if (c =? 62)%N
          then mk_tag name (attrs ++ [(rev acc, [])]) :: start_tags MText s'
          else start_tags (MAttrName name attrs (lower c :: acc)) s'
      | MAttrEq name attrs key =>
          if ((c =? 34) || (c =? 39))%N then start_tags (MValue name attrs key (Some c) []) s'
          else if is_ws c then start_tags st s'
          else if (c =? 62)%N then mk_tag name (attrs ++ [(key, [])]) :: start_tags MText s'
          else start_tags (MValue name attrs key None [c]) s'
      | MValue name attrs key (Some q) acc =>
          if (c =? q)%N
          then start_tags (MAttrs name (attrs ++ [(key, unescape_refs (rev acc))])) s'
          else start_tags (MValue name attrs key (Some q) (c :: acc)) s'
      | MValue name attrs key None acc =>
          if is_ws c
          then start_tags (MAttrs name (attrs ++ [(key, unescape_refs (rev acc))])) s'
          else if (c =? 62)%N
          then mk_tag name (attrs ++ [(key, unescape_refs (rev acc))]) :: start_tags MText s'
          else start_tags (MValue name attrs key None (c :: acc)) s'
      end
  end.

(** A selector of the shape [name[attr]], cut at its bracket. *)
Fixpoint split_selector (sel : str) : str * str :=
  match sel with
  | [] => ([], [])
  | c :: sel' =>
      if (c =? 91)%N then ([], removelast sel')
      else let (n, a) := split_selector sel' in (c :: n, a)
  end.

#[export] Instance PlainMarkup : Markup := {|
  select_one := fun markup selector =>
    let (name, attr) := split_selector selector in
    find (fun t =>
            if str_eq_dec (tag_name t) name
            then match attr_get (tag_attrs t) attr with
                 | Some _ => true
                 | None => false
                 end
            else false)
         (start_tags MText markup)
|}.

(** The UTF-8 codec with [errors='replace']: a well-formed sequence of
    one to four bytes gives its code point; a byte that starts none, and
    a sequence that breaks off, give one U+FFFD. *)
Definition REPLACEMENT : char := 65533%N.

Definition continues (b : N) : bool := ((128 <=? b) && (b <=? 191))%N.

Definition second_of_3 (b0 b1 : N) : bool :=
  if (b0 =? 224)%N then ((160 <=? b1) && (b1 <=? 191))%N
  else if (b0 =? 237)%N then ((128 <=? b1) && (b1 <=? 159))%N
  else continues b1.

Definition second_of_4 (b0 b1 : N) : bool :=
  if (b0 =? 240)%N then ((144 <=? b1) && (b1 <=? 191))%N
  else if (b0 =? 244)%N then ((128 <=? b1) && (b1 <=? 143))%N
  else continues b1.

Fixpoint utf_8 (b : list N) : str :=
  match b with
  | [] => []
  | b0 :: r =>
      if (b0 <? 128)%N then b0 :: utf_8 r
      else if ((194 <=? b0) && (b0 <=? 223))%N then
        match r with
        | b1 :: r1 =>
            if continues b1 then ((b0 - 192) * 64 + (b1 - 128))%N :: utf_8 r1
            else REPLACEMENT :: utf_8 r
        | [] => REPLACEMENT :: utf_8 r
        end
      else if ((224 <=? b0) && (b0 <=? 239))%N then
        match r with
        | b1 :: r1 =>
            if second_of_3 b0 b1 then
              match r1 with
              | b2 :: r2 =>
                  if continues b2
                  then ((b0 - 224) * 4096 + (b1 - 128) * 64 + (b2 - 128))%N :: utf_8 r2
                  else REPLACEMENT :: utf_8 r1
              | [] => REPLACEMENT :: utf_8 r1
              end
            else REPLACEMENT :: utf_8 r
        | [] => REPLACEMENT :: utf_8 r
        end
      else if ((240 <=? b0) && (b0 <=? 244))%N then
        match r with
        | b1 :: r1 =>
            if second_of_4 b0 b1 then
              match r1 with
              | b2 :: r2 =>
                  if continues b2 then
                    match r2 with
                    | b3 :: r3 =>
                        if continues b3
                        then ((b0 - 240) * 262144 + (b1 - 128) * 4096 +
                              (b2 - 128) * 64 + (b3 - 128))%N :: utf_8 r3
                        else REPLACEMENT :: utf_8 r2
                    | [] => REPLACEMENT :: utf_8 r2
                    end
                  else REPLACEMENT :: utf_8 r1
              | [] => REPLACEMENT :: utf_8 r1
              end
            else REPLACEMENT :: utf_8 r
        | [] => REPLACEMENT :: utf_8 r
        end
      else REPLACEMENT :: utf_8 r
  end.

(** The ISO-8859-1 codec: every byte is the code point of its value. *)
Definition latin_1 (b : bytes) : str := map Byte.to_N b.

(** An interpreter with these two codecs, looked up by name without
    regard to case, and a library that has no detector and takes UTF-8
    for a body whose header names no encoding. *)
#[export] Instance TwoCodecs : Codecs := {|
  decode := fun name b =>
    if str_eq_dec (map lower name) (u "utf-8") then Some (utf_8 (map Byte.to_N b))
    else if str_eq_dec (map lower name) (u "iso-8859-1") then Some (latin_1 b)
    else None;
  decode_default := fun b => utf_8 (map Byte.to_N b);
  apparent_encoding := fun _ => Some (u "utf-8")
|}.

(** The bytes of an ASCII text. *)
Definition ascii_bytes (s : str) : bytes :=
  flat_map (fun c => match Byte.of_N c with
                     | Some b => if (c <? 128)%N then [b] else []
                     | None => []
                     end) s.

Definition message (status : Z) (charset : option str) (body : bytes) : Message :=
  {| message_status := status; message_reason := []; encoding := charset; content := body |}.

(** A network that answers the GET and the POST with fixed messages. *)
Definition serving (page answer : Message) : Server := {|
  serve_get := fun _ => Ok page;
  serve_post := fun _ _ _ => Ok answer
|}.

(** A transport that answers the GET and the POST with fixed responses. *)
Definition fixed (page answer : Response) : Transport := {|
  http_get := fun _ => Ok page;
  http_post := fun _ _ _ => Ok answer
|}.

Definition response (status : Z) (body : str) : Response :=
  {| status_code := status; reason := []; text := body |}.

(** The page of the end-to-end scenario as the specification writes it:
    the attribute value has a bracket of its own behind the [%.@.] that
    the script turns into one. *)
Definition page_body_spec : str :=
  u "<c-wiz data-p=" ++ [DQ] ++ u "%.@.[&quot;id1&quot;,2,3,4,5,6,7,8]" ++ [DQ] ++
  u "></c-wiz>".

(** The same page with the one bracket the rewrite supplies. *)
Definition page_body : str :=
  u "<c-wiz data-p=" ++ [DQ] ++ u "%.@.&quot;id1&quot;,2,3,4,5,6,7,8]" ++ [DQ] ++
  u "></c-wiz>".

(** The attribute value of that page, once the references are decoded. *)
Definition page_data : str := u "%.@." ++ quoted "id1" ++ u ",2,3,4,5,6,7,8]".

Definition NL : char := 10%N.

Definition answer_body : str :=
  u ")]}'" ++ [NL] ++ u "[[0,0," ++ [DQ] ++ u "[0," ++
  [BACKSLASH; DQ] ++ u "https://example.com/article" ++ [BACKSLASH; DQ] ++
  u "]" ++ [DQ] ++ u "]]".

(** The token of the scenario, its inner payload and the form field. *)
Definition scenario_obj {FM : FloatModel} : list value :=
  [VStr (u "garturlreq"); VStr (u "id1");
   VInt 2; VInt 3; VInt 4; VInt 5; VInt 6; VInt 7; VInt 8].

Definition scenario_inner {FM : FloatModel} : list value :=
  [VStr (u "garturlreq"); VStr (u "id1"); VInt 2; VInt 7; VInt 8].

Definition scenario_f_req : str :=
  u "[[[" ++ quoted "Fbv4je" ++ u ", " ++
  [DQ] ++ u "[" ++ [BACKSLASH; DQ] ++ u "garturlreq" ++ [BACKSLASH; DQ] ++ u ", " ++
  [BACKSLASH; DQ] ++ u "id1" ++ [BACKSLASH; DQ] ++ u ", 2, 7, 8]" ++ [DQ] ++
  u ", " ++ quoted "null" ++ u ", " ++ quoted "generic" ++ u "]]]".

Definition article : str := u "https://example.com/article".

(** The body of the stripping example: the prefix, a line feed and a
    nested array whose third element is the text of an array. *)
Definition nested_rest : str :=
  [NL] ++ u "[[1,2," ++ [DQ] ++ u "[3,4]" ++ [DQ] ++ u "]]".

(** A remainder with the prefix inside the text to extract. *)
Definition inner_xssi_rest : str :=
  u "[[0,0," ++ [DQ] ++ u "[0," ++ [BACKSLASH; DQ] ++ u ")]}'" ++
  [BACKSLASH; DQ] ++ u "]" ++ [DQ] ++ u "]]".

(** A body whose two halves of the prefix meet once a copy between them
    is deleted. *)
Definition nested_xssi : str := u ")])]}'}'".

(** A transport whose GET raises, and one whose POST raises. *)
Definition get_fails (e : exn) : Transport := {|
  http_get := fun _ => Raise e;
  http_post := fun _ _ _ => Raise e
|}.

Definition post_fails (page : Response) (e : exn) : Transport := {|
  http_get := fun _ => Ok page;
  http_post := fun _ _ _ => Raise e
|}.

(** The scenario served with status 200, and served with the statuses of
    a refusal. *)
Definition served : Transport :=
  fixed (response 200 page_body) (response 200 answer_body).

Definition refused : Transport :=
  fixed (response 404 page_body) (response 500 answer_body).

(** An answer whose article URL ends in the two bytes [C3 A9]: the
    letter e with an acute accent in UTF-8, two letters in ISO-8859-1. *)
Definition accent_body : bytes :=
  ascii_bytes (u ")]}'" ++ [NL] ++ u "[[0,0," ++ [DQ] ++ u "[0," ++
               [BACKSLASH; DQ] ++ u "https://example.com/caf") ++
  [Byte.xc3; Byte.xa9] ++
  ascii_bytes ([BACKSLASH; DQ] ++ u "]" ++ [DQ] ++ u "]]").

Definition accent_utf_8 : str := u "https://example.com/caf" ++ [233%N].
Definition accent_latin_1 : str := u "https://example.com/caf" ++ [195%N; 169%N].

(** The scenario's page and the accented answer, the answer labelled
    once as UTF-8 and once as ISO-8859-1. *)
Definition labelled_utf_8 : Server :=
  serving (message 200 (Some (u "utf-8")) (ascii_bytes page_body))
        (message 200 (Some (u "utf-8")) accent_body).

Definition labelled_latin_1 : Server :=
  serving (message 200 (Some (u "utf-8")) (ascii_bytes page_body))
        (message 200 (Some (u "ISO-8859-1")) accent_body).

(** The scenario in bytes, served with status 200 and a UTF-8 label, and
    served with the statuses of a refusal, the page labelled ISO-8859-1
    and the answer not labelled at all. *)
Definition served_bytes : Server :=
  serving (message 200 (Some (u "utf-8")) (ascii_bytes page_body))
        (message 200 (Some (u "utf-8")) (ascii_bytes answer_body)).

Definition refused_bytes : Server :=
  serving (message 404 (Some (u "ISO-8859-1")) (ascii_bytes page_body))
        (message 500 None (ascii_bytes answer_body)).

Definition c_wiz : Tag := mk_tag (u "c-wiz") [(u "data-p", page_data)].

End Scenario.

(** ** Texts and objects that survive the wire *)

Module Wire.

(** The characters [json.dumps] leaves as they are, quote and backslash
    among them: space to tilde. *)
Definition printable (c : char) : bool := ((32 <=? c) && (c <=? 126))%N.

(** A text made of code points (up to U+10FFFF) in which no high
    surrogate stands directly before a low one: escaped one by one, such
    a pair would be read back as a single character. *)
Fixpoint well_formed (s : str) : bool :=
  match s with
  | [] => true
  | c :: s' =>
      (c <=? 1114111)%N &&
      negb (is_high_surrogate c &&
            match s' with
            | d :: _ => is_low_surrogate d
            | [] => false
            end) &&
      well_formed s'
  end.

(** No key twice. *)
Fixpoint distinct (keys : list str) : bool :=
  match keys with
  | [] => true
  | k :: rest =>
      negb (existsb (fun k' => if str_eq_dec k k' then true else false) rest) &&
      distinct rest
  end.

(** The digits of a decimal numeral, as characters. *)
Fixpoint uint_codes (d : Decimal.uint) : str :=
  match d with
  | Decimal.Nil => []
  | Decimal.D0 d' => 48%N :: uint_codes d'
  | Decimal.D1 d' => 49%N :: uint_codes d'
  | Decimal.D2 d' => 50%N :: uint_codes d'
  | Decimal.D3 d' => 51%N :: uint_codes d'
  | Decimal.D4 d' => 52%N :: uint_codes d'
  | Decimal.D5 d' => 53%N :: uint_codes d'
  | Decimal.D6 d' => 54%N :: uint_codes d'
  | Decimal.D7 d' => 55%N :: uint_codes d'
  | Decimal.D8 d' => 56%N :: uint_codes d'
  | Decimal.D9 d' => 57%N :: uint_codes d'
  end.

(** What can follow the text of a number without being read as part of
    it: the end, or anything but a digit, a dot and an exponent mark. *)
Definition stops (rest : str) : bool :=
  match rest with
  | [] => true
  | c :: _ => negb (is_digit c || (c =? 46) || (c =? 101) || (c =? 69))%N
  end.

(** The text behind an escaped high surrogate does not go on with an
    escaped low surrogate. *)
Definition no_low_ahead (T : str) : Prop :=
  forall g1 g2 g3 g4 s4,
    T = 92%N :: 117%N :: g1 :: g2 :: g3 :: g4 :: s4 ->
    exists uni2, decode_uXXXX g1 g2 g3 g4 = Some uni2 /\ is_low_surrogate uni2 = false.

(** The first character of the text of an object. *)
Definition head_ok (c : char) : bool :=
  (is_digit c || (c =? 45) || (c =? 110) || (c =? 116) || (c =? 102) ||
   (c =? 34) || (c =? 91) || (c =? 123))%N.

Section Objects.
Context {FM : FloatModel}.

(** An object without floats, with well-formed strings and keys, and
    with no key twice in a [dict]. *)
Fixpoint plain (v : value) : bool :=
  match v with
  | VNone | VBool _ | VInt _ => true
  | VFloat _ => false
  | VStr s => well_formed s
  | VList items => forallb plain items
  | VDict pairs =>
      distinct (map fst pairs) &&
      forallb (fun kv : str * value => let (k, x) := kv in well_formed k && plain x)
              pairs
  end.

(** An object without floats and with well-formed strings and keys. *)
Fixpoint textual (v : value) : bool :=
  match v with
  | VNone | VBool _ | VInt _ => true
  | VFloat _ => false
  | VStr s => well_formed s
  | VList items => forallb textual items
  | VDict pairs =>
      forallb (fun kv : str * value => let (k, x) := kv in well_formed k && textual x)
              pairs
  end.

(** An object in which no [dict] has a key twice. *)
Fixpoint keyed (v : value) : bool :=
  match v with
  | VList items => forallb keyed items
  | VDict pairs =>
      distinct (map fst pairs) &&
      forallb (fun kv : str * value => keyed (snd kv)) pairs
  | _ => true
  end.

(** What the decoder does on the text of an object, whatever follows
    it, with any depth bound above the length of the text. *)
Definition reads_back (v : value) : Prop :=
  forall rest d,
    stops rest = true ->
    length (json_dumps v ++ rest) < d ->
    scan_once d (json_dumps v ++ rest) = Some (v, rest).

(** Induction on objects, through the lists and the pairs. *)
Section ValueInd.
Variable P : value -> Prop.
Hypothesis HNone : P VNone.
Hypothesis HBool : forall b, P (VBool b).
Hypothesis HInt : forall z, P (VInt z).
Hypothesis HFloat : forall f, P (VFloat f).
Hypothesis HStr : forall s, P (VStr s).
Hypothesis HList : forall items, Forall P items -> P (VList items).
Hypothesis HDict : forall pairs, Forall (fun kv => P (snd kv)) pairs -> P (VDict pairs).

Fixpoint value_ind_nested (v : value) : P v :=
  match v with
  | VNone => HNone
  | VBool b => HBool b
  | VInt z => HInt z
  | VFloat f => HFloat f
  | VStr s => HStr s
  | VList items =>
      HList ((fix go (l : list value) : Forall P l :=
                match l with
                | [] => Forall_nil _
                | x :: r => Forall_cons x (value_ind_nested x) (go r)
                end) items)
  | VDict pairs =>
      HDict ((fix go (l : list (str * value)) : Forall (fun kv => P (snd kv)) l :=
                match l with
                | [] => Forall_nil _
                | kv :: r => Forall_cons kv (value_ind_nested (snd kv)) (go r)
                end) pairs)
  end.
End ValueInd.

End Objects.

End Wire.
Import Wire.

(** ** Slicing lemmas *)

Section SliceFacts.
Variable A : Type.
Implicit Types l obj : list A.

Lemma py_slice_drop_last l (k : nat) :
  py_slice None (Some (- Z.of_nat (S k))%Z) l = firstn (length l - S k) l.
Proof.
  unfold py_slice, adjust.
  replace (- Z.of_nat (S k) <? 0)%Z with true by (symmetry; apply Z.ltb_lt; lia).
  rewrite Z.sub_0_r. simpl skipn. f_equal. lia.
Qed.

Lemma py_slice_take_last l (k : nat) :
  py_slice (Some (- Z.of_nat (S k))%Z) None l = skipn (length l - S k) l.
Proof.
  unfold py_slice, adjust.
  replace (- Z.of_nat (S k) <? 0)%Z with true by (symmetry; apply Z.ltb_lt; lia).
  rewrite firstn_all2.
  - f_equal. lia.
  - rewrite length_skipn. lia.
Qed.

Lemma py_slice_nonneg l (i j : nat) :
  i <= j -> j <= length l ->
  py_slice (Some (Z.of_nat i)) (Some (Z.of_nat j)) l = firstn (j - i) (skipn i l).
Proof.
  intros Hij Hj. unfold py_slice, adjust.
  replace (Z.of_nat i <? 0)%Z with false by (symmetry; apply Z.ltb_ge; lia).
  replace (Z.of_nat j <? 0)%Z with false by (symmetry; apply Z.ltb_ge; lia).
  rewrite !Z.min_l by lia. f_equal; [lia | f_equal; lia].
Qed.

Lemma reshape_firstn_skipn obj :
  reshape obj = firstn (length obj - 6) obj ++ skipn (length obj - 2) obj.
Proof.
  unfold reshape.
  change (-6)%Z with (- Z.of_nat 6)%Z. change (-2)%Z with (- Z.of_nat 2)%Z.
  now rewrite py_slice_drop_last, py_slice_take_last.
Qed.

Lemma length_reshape obj :
  length (reshape obj) =
  if 6 <=? length obj then length obj - 4 else Nat.min 2 (length obj).
Proof.
  rewrite reshape_firstn_skipn, length_app, length_firstn, length_skipn.
  destruct (Nat.leb_spec 6 (length obj)); lia.
Qed.

End SliceFacts.

(** ** Facts about [str.replace] *)

Section ReplaceFacts.
Implicit Types old new p s t : str.

Lemma starts_with_app p t : starts_with p (p ++ t) = true.
Proof.
  induction p as [|a p IH]; simpl; [reflexivity|].
  now rewrite N.eqb_refl, IH.
Qed.

Lemma starts_with_inv p s : starts_with p s = true -> s = p ++ skipn (length p) s.
Proof.
  revert s. induction p as [|a p IH]; intros [|b s]; simpl; try easy.
  intros H. apply andb_prop in H as [Hab Hp].
  apply N.eqb_eq in Hab. subst b. f_equal. now apply IH.
Qed.

Lemma occurs_starts p s : starts_with p s = true -> occurs p s = true.
Proof. destruct s; simpl; intros ->; reflexivity. Qed.

Lemma occurs_prefix p t : occurs p (p ++ t) = true.
Proof. apply occurs_starts, starts_with_app. Qed.

Lemma replace_scan_skip old new k s :
  replace_scan old new k s = replace_scan old new 0 (skipn k s).
Proof.
  revert k. induction s as [|c s IH]; intros [|k]; simpl; try reflexivity.
  apply IH.
Qed.

(** The scan, one step at a time. *)
Lemma replace_scan_hit old new t :
  old <> [] ->
  replace_scan old new 0 (old ++ t) = new ++ replace_scan old new 0 t.
Proof.
  intros Hne. destruct old as [|a old]; [easy|].
  change ((a :: old) ++ t) with (a :: (old ++ t)).
  cbn [replace_scan].
  change (a :: old ++ t) with ((a :: old) ++ t).
  rewrite starts_with_app. f_equal.
  rewrite replace_scan_skip. f_equal.
  replace (length (a :: old) - 1) with (length old) by (simpl; lia).
  now rewrite skipn_app, skipn_all, Nat.sub_diag.
Qed.

Lemma replace_scan_miss old new c s :
  starts_with old (c :: s) = false ->
  replace_scan old new 0 (c :: s) = c :: replace_scan old new 0 s.
Proof.
  intros H. cbn [replace_scan]. now rewrite H.
Qed.

(** A text without a copy of [old] is left as it is. *)
Lemma replace_scan_free old new s :
  occurs old s = false -> replace_scan old new 0 s = s.
Proof.
  induction s as [|c s IH]; [reflexivity|].
  intros H. cbn [occurs] in H. apply orb_false_elim in H as [Hs Ho].
  rewrite replace_scan_miss by assumption. f_equal. now apply IH.
Qed.

(** Deleting never lengthens, and shortens when there is a copy. *)
Lemma replace_scan_delete_length old :
  old <> [] ->
  forall n s, length s <= n ->
    length (replace_scan old [] 0 s) <= length s /\
    (occurs old s = true -> length (replace_scan old [] 0 s) < length s).
Proof.
  intros Hne. induction n as [|n IH]; intros s Hn.
  - destruct s; [|simpl in Hn; lia].
    split; [reflexivity|]. destruct old; [easy | discriminate].
  - destruct s as [|c s]; [split; [reflexivity|destruct old; [easy|discriminate]]|].
    destruct (starts_with old (c :: s)) eqn:Hs.
    + pose proof (starts_with_inv _ _ Hs) as E.
      assert (Hlen : length (skipn (length old) (c :: s)) + length old = length (c :: s)).
      { apply (f_equal (@length _)) in E.
        rewrite length_app, length_skipn in E. rewrite length_skipn. lia. }
      revert E Hlen. generalize (skipn (length old) (c :: s)) as t. intros t E Hlen.
      rewrite E, replace_scan_hit by assumption. cbn [app].
      assert (0 < length old) by (destruct old; [easy | simpl; lia]).
      destruct (IH t) as [Hle _]; [lia|].
      rewrite length_app. split; intros; lia.
    + rewrite replace_scan_miss by assumption.
      destruct (IH s) as [Hle Hlt]; [simpl in Hn; lia|].
      cbn [occurs]. rewrite Hs. cbn [orb length].
      split; [lia|]. intros Ho. specialize (Hlt Ho). lia.
Qed.

(** The straddle that a border would allow: a copy of [p] that starts in
    a text [a] free of [p] and ends inside the copy of [p] behind it. *)
Lemma borderless_spec p :
  borderless p = true ->
  forall x y z, p = y ++ x -> p = x ++ z -> x = [] \/ y = [].
Proof.
  intros Hb x y z Hyx Hxz.
  destruct x as [|c x]; [now left|]. destruct y as [|d y]; [now right|].
  exfalso. unfold borderless in Hb. rewrite forallb_forall in Hb.
  specialize (Hb (length (c :: x))).
  destruct (str_eq_dec (firstn (length (c :: x)) p)
                       (skipn (length p - length (c :: x)) p)) as [_|Hneq].
  - assert (Hin : In (length (c :: x)) (seq 1 (length p - 1))).
    { apply in_seq. rewrite Hyx, length_app. simpl. lia. }
    specialize (Hb Hin). discriminate.
  - apply Hneq.
    rewrite Hxz at 1. rewrite firstn_app, firstn_all, Nat.sub_diag. simpl firstn.
    rewrite app_nil_r.
    rewrite Hyx at 2. rewrite Hyx at 1. rewrite length_app.
    replace (length (d :: y) + length (c :: x) - length (c :: x)) with (length (d :: y)) by lia.
    now rewrite skipn_app, skipn_all, Nat.sub_diag.
Qed.

Lemma no_straddle p a b :
  borderless p = true -> p <> [] ->
  occurs p a = false ->
  starts_with p (a ++ p ++ b) = true -> a = [].
Proof.
  intros Hb Hne Ha Hs.
  apply starts_with_inv in Hs.
  remember (skipn (length p) (a ++ p ++ b)) as t eqn:Ht. clear Ht.
  apply app_eq_app in Hs as [l [[H1 H2]|[H1 H2]]].
  - (* [a] begins with a copy of [p] *)
    rewrite H1, occurs_prefix in Ha. discriminate.
  - (* [p = a ++ l] with [l] a prefix of [p ++ b] *)
    apply app_eq_app in H2 as [l' [[H3 H4]|[H3 H4]]].
    + destruct (@borderless_spec p Hb l a l' H1 H3) as [Hl|Hy]; [|assumption].
      subst l. rewrite app_nil_r in H1. subst a.
      rewrite <- (app_nil_r p) in Ha at 2. rewrite occurs_prefix in Ha. discriminate.
    + (* [l] is at least as long as [p] *)
      assert (length p = length a + length l) by (rewrite H1 at 1; apply length_app).
      assert (length l = length p + length l') by (rewrite H3 at 1; apply length_app).
      destruct a; [reflexivity | simpl in *; lia].
Qed.

(** A text free of [old], then a copy of [old]: the scan copies the text
    and replaces the copy. *)
Lemma replace_scan_segment old new a b :
  borderless old = true -> old <> [] ->
  occurs old a = false ->
  replace_scan old new 0 (a ++ old ++ b) = a ++ new ++ replace_scan old new 0 b.
Proof.
  intros Hb Hne. induction a as [|c a IH]; intros Ha.
  - cbn [app]. now apply replace_scan_hit.
  - cbn [occurs] in Ha. apply orb_false_elim in Ha as [Hs Ho].
    change ((c :: a) ++ old ++ b) with (c :: (a ++ old ++ b)).
    rewrite replace_scan_miss.
    + cbn [app]. f_equal. now apply IH.
    + destruct (starts_with old (c :: a ++ old ++ b)) eqn:E; [|reflexivity].
      change (c :: a ++ old ++ b) with ((c :: a) ++ old ++ b) in E.
      apply no_straddle in E; try assumption; [discriminate|].
      cbn [occurs]. now rewrite Hs, Ho.
Qed.

(** [s.replace(old, new)] on the texts [segs] joined by [old], each free
    of [old], is the same texts joined by [new]. *)
Lemma replace_scan_join old new segs :
  borderless old = true -> old <> [] ->
  Forall (fun s => occurs old s = false) segs ->
  replace_scan old new 0 (join old segs) = join new segs.
Proof.
  intros Hb Hne. induction segs as [|s rest IH]; intros HF; [reflexivity|].
  inversion HF as [|? ? Hs Hrest]; subst.
  destruct rest as [|s2 rest].
  - simpl. now apply replace_scan_free.
  - change (join old (s :: s2 :: rest)) with (s ++ old ++ join old (s2 :: rest)).
    change (join new (s :: s2 :: rest)) with (s ++ new ++ join new (s2 :: rest)).
    rewrite replace_scan_segment by assumption. now rewrite IH.
Qed.

End ReplaceFacts.

(** ** The two rewrites of the script *)

Section Rewrites.

Lemma join_nil (segs : list str) : join [] segs = concat segs.
Proof.
  induction segs as [|s rest IH]; [reflexivity|].
  destruct rest as [|s2 rest].
  - simpl. now rewrite app_nil_r.
  - change (join [] (s :: s2 :: rest)) with (s ++ [] ++ join [] (s2 :: rest)).
    rewrite IH. reflexivity.
Qed.

Lemma strip_xssi_free (s : str) :
  occurs XSSI_PREFIX s = false -> strip_xssi s = s.
Proof. apply replace_scan_free. Qed.

(** The prefix, then a remainder free of it: only the prefix goes. *)
Lemma strip_xssi_prefix (rest : str) :
  occurs XSSI_PREFIX rest = false -> strip_xssi (XSSI_PREFIX ++ rest) = rest.
Proof.
  intros H. unfold strip_xssi, str_replace. cbn [XSSI_PREFIX u map list_ascii_of_string].
  change (N_of_ascii ")" :: N_of_ascii "]" :: N_of_ascii "}" :: N_of_ascii "'" :: nil)
    with XSSI_PREFIX.
  rewrite replace_scan_hit by discriminate.
  now rewrite replace_scan_free.
Qed.

(** Every text is a join, by [old], of texts free of [old]: cut it at
    the leftmost copy of [old], again and again. *)
Lemma every_text_is_a_join (old : str) :
  old <> [] ->
  forall n s, length s <= n ->
    exists segs, segs <> [] /\
                 Forall (fun t => occurs old t = false) segs /\
                 join old segs = s.
Proof.
  intros Hne. induction n as [|n IH]; intros s Hn.
  - destruct s; [|simpl in Hn; lia].
    exists [[]]. split; [discriminate | split; [|reflexivity]].
    constructor; [|constructor]. destruct old; [easy|reflexivity].
  - induction s as [|c s IHs].
    + exists [[]]. split; [discriminate | split; [|reflexivity]].
      constructor; [|constructor]. destruct old; [easy|reflexivity].
    + destruct (starts_with old (c :: s)) eqn:Hs.
      * pose proof (starts_with_inv _ _ Hs) as E.
        assert (Hlen : length (skipn (length old) (c :: s)) <= n).
        { rewrite length_skipn. destruct old; [easy|]. simpl in Hn |- *. lia. }
        destruct (IH _ Hlen) as (segs & Hsegs & HF & Hj).
        exists ([] :: segs). split; [discriminate | split].
        -- constructor; [|assumption]. destruct old; [easy|reflexivity].
        -- destruct segs as [|s1 segs]; [easy|].
           change (join old ([] :: s1 :: segs)) with ([] ++ old ++ join old (s1 :: segs)).
           rewrite Hj. symmetry. exact E.
      * destruct IHs as (segs & Hsegs & HF & Hj); [simpl in Hn; lia|].
        destruct segs as [|s1 segs]; [easy|].
        inversion HF as [|? ? H1 Hrest]; subst.
        exists ((c :: s1) :: segs). split; [discriminate | split].
        -- constructor; [|assumption].
           cbn [occurs]. rewrite H1, orb_false_r.
           destruct (starts_with old (c :: s1)) eqn:E; [|reflexivity].
           exfalso. apply starts_with_inv in E.
           assert (Hc : starts_with old (c :: join old (s1 :: segs)) = true).
           { destruct segs as [|s2 segs].
             - simpl join. rewrite E. apply starts_with_app.
             - change (join old (s1 :: s2 :: segs))
                 with (s1 ++ old ++ join old (s2 :: segs)).
               change (c :: s1 ++ old ++ join old (s2 :: segs))
                 with ((c :: s1) ++ old ++ join old (s2 :: segs)).
               rewrite E, <- app_assoc. apply starts_with_app. }
           rewrite Hc in Hs. discriminate.
        -- destruct segs as [|s2 segs]; reflexivity.
Qed.

End Rewrites.

(** ** The decoder's bounds *)

Section DecoderBounds.
Context {FM : FloatModel}.

Lemma push_inv c r t rest :
  push c r = Some (t, rest) -> exists t', r = Some (t', rest) /\ t = c :: t'.
Proof.
  destruct r as [[t' rest']|]; simpl; [|discriminate].
  intros H. injection H as <- <-. now exists t'.
Qed.

Lemma length_skip_ws s : length (skip_ws s) <= length s.
Proof.
  induction s as [|c s IH]; simpl; [lia|].
  destruct (is_ws c); simpl; lia.
Qed.

Lemma scanstring_shrinks_upto n :
  forall s, length s <= n ->
  forall t r, scanstring s = Some (t, r) -> length r < length s.
Proof.
  induction n as [|n IH]; intros s Hn t r H.
  - destruct s; [discriminate | simpl in Hn; lia].
  - destruct s as [|c s1]; [discriminate|].
    cbn [scanstring] in H.
    repeat first
      [ discriminate
      | progress (cbv beta match in H)
      | match type of H with
        | Some _ = Some _ => injection H as <- <-; simpl; lia
        | push _ _ = Some _ =>
            apply push_inv in H as (t' & H & ->);
            apply IH in H; simpl in *; lia
        | context [if ?b then _ else _] => destruct b eqn:?
        | context [match ?x with _ => _ end] => destruct x eqn:?
        end ].
Qed.

Lemma scanstring_shrinks : shrinks scanstring.
Proof. intros s t r. apply (@scanstring_shrinks_upto (length s)). apply le_n. Qed.

Lemma span_digits_length s : length (snd (span_digits s)) <= length s.
Proof.
  induction s as [|c s IH]; simpl; [lia|].
  destruct (is_digit c); [|simpl; lia].
  destruct (span_digits s) as [ds r]. simpl in *. lia.
Qed.

Lemma match_integer_shrinks s text r :
  match_integer s = Some (text, r) -> length r < length s.
Proof.
  unfold match_integer. intros H.
  destruct s as [|c s']; [discriminate|].
  destruct (c =? 45)%N.
  - destruct s' as [|d s2]; [discriminate|].
    destruct (d =? 48)%N; [injection H as <- <-; simpl; lia|].
    destruct (is_digit d); [|discriminate].
    pose proof (span_digits_length s2) as Hl.
    destruct (span_digits s2) as [ds r']. injection H as <- <-. simpl in *. lia.
  - destruct (c =? 48)%N; [injection H as <- <-; simpl; lia|].
    destruct (is_digit c); [|discriminate].
    pose proof (span_digits_length s') as Hl.
    destruct (span_digits s') as [ds r']. injection H as <- <-. simpl in *. lia.
Qed.

Lemma match_frac_length s : length (snd (match_frac s)) <= length s.
Proof.
  unfold match_frac. destruct s as [|c s1]; [simpl; lia|].
  destruct (c =? 46)%N; [|simpl; lia].
  pose proof (span_digits_length s1) as Hl.
  destruct (span_digits s1) as [[|d ds] r]; simpl in *; lia.
Qed.

Lemma match_exp_length s : length (snd (match_exp s)) <= length s.
Proof.
  unfold match_exp. destruct s as [|e s1]; [simpl; lia|].
  destruct ((e =? 101) || (e =? 69))%N; [|simpl; lia].
  destruct s1 as [|c s'].
  - simpl. lia.
  - destruct ((c =? 45) || (c =? 43))%N.
    + pose proof (span_digits_length s') as Hl.
      destruct (span_digits s') as [[|d ds] r]; simpl in *; lia.
    + pose proof (span_digits_length (c :: s')) as Hl.
      destruct (span_digits (c :: s')) as [[|d ds] r]; simpl in *; lia.
Qed.

Lemma match_number_shrinks s v r :
  match_number s = Some (v, r) -> length r < length s.
Proof.
  unfold match_number. intros H.
  destruct (match_integer s) as [[integer s1]|] eqn:Hi; [|discriminate].
  apply match_integer_shrinks in Hi.
  pose proof (match_frac_length s1) as Hf.
  destruct (match_frac s1) as [frac s2].
  pose proof (match_exp_length s2) as He.
  destruct (match_exp s2) as [exp s3]. simpl in *.
  destruct frac, exp; injection H as <- <-; lia.
Qed.

Section Loops.
Variables scan scan' : str -> option (value * str).
Hypothesis scan_shrinks : shrinks scan.

Lemma array_loop_shrinks n s vs r :
  array_loop scan n s = Some (vs, r) -> length r < length s.
Proof.
  revert s vs r. induction n as [|n IH]; intros s vs r H; [discriminate|].
  cbn [array_loop] in H.
  destruct (scan s) as [[v s1]|] eqn:Hv; [|discriminate].
  apply scan_shrinks in Hv.
  pose proof (length_skip_ws s1) as Hw.
  destruct (skip_ws s1) as [|c s2]; [discriminate|].
  destruct (c =? 93)%N; [injection H as <- <-; simpl in *; lia|].
  destruct (c =? 44)%N; [|discriminate].
  destruct (array_loop scan n (skip_ws s2)) as [[vs' r']|] eqn:Hl; [|discriminate].
  injection H as <- <-. apply IH in Hl.
  pose proof (length_skip_ws s2). simpl in *. lia.
Qed.

(** Past the length of the text, the bound on the elements plays no part. *)
Lemma array_loop_enough n m s :
  length s < n -> length s < m -> array_loop scan n s = array_loop scan m s.
Proof.
  revert m s. induction n as [|n IH]; intros m s Hn Hm; [lia|].
  destruct m as [|m]; [lia|].
  cbn [array_loop].
  destruct (scan s) as [[v s1]|] eqn:Hv; [|reflexivity].
  apply scan_shrinks in Hv.
  pose proof (length_skip_ws s1) as Hw.
  destruct (skip_ws s1) as [|c s2]; [reflexivity|].
  destruct (c =? 93)%N; [reflexivity|].
  destruct (c =? 44)%N; [|reflexivity].
  pose proof (length_skip_ws s2).
  rewrite (IH m (skip_ws s2)); [reflexivity | simpl in *; lia ..].
Qed.

(** The loop calls [scan] on suffixes of its text only. *)
Lemma array_loop_ext n s :
  (forall t, length t <= length s -> scan t = scan' t) ->
  array_loop scan n s = array_loop scan' n s.
Proof.
  revert s. induction n as [|n IH]; intros s Hext; [reflexivity|].
  cbn [array_loop]. rewrite <- (Hext s (le_n _)).
  destruct (scan s) as [[v s1]|] eqn:Hv; [|reflexivity].
  apply scan_shrinks in Hv.
  pose proof (length_skip_ws s1) as Hw.
  destruct (skip_ws s1) as [|c s2]; [reflexivity|].
  destruct (c =? 93)%N; [reflexivity|].
  destruct (c =? 44)%N; [|reflexivity].
  pose proof (length_skip_ws s2).
  rewrite IH; [reflexivity|].
  intros t Ht. apply Hext. simpl in *. lia.
Qed.

Lemma parse_array_shrinks s v r :
  parse_array scan s = Some (v, r) -> length r < length s.
Proof.
  unfold parse_array. intros H.
  pose proof (length_skip_ws s) as Hw.
  destruct (skip_ws s) as [|c s1] eqn:Hs; [discriminate|].
  destruct (c =? 93)%N; [injection H as <- <-; simpl in *; lia|].
  destruct (array_loop scan (S (length s)) (c :: s1)) as [[vs r']|] eqn:Hl; [|discriminate].
  injection H as <- <-. apply array_loop_shrinks in Hl. simpl in *. lia.
Qed.

Lemma parse_array_ext s :
  (forall t, length t <= length s -> scan t = scan' t) ->
  parse_array scan s = parse_array scan' s.
Proof.
  intros Hext. unfold parse_array.
  pose proof (length_skip_ws s) as Hw.
  destruct (skip_ws s) as [|c s1]; [reflexivity|].
  destruct (c =? 93)%N; [reflexivity|].
  rewrite array_loop_ext; [reflexivity|].
  intros t Ht. apply Hext. lia.
Qed.

Lemma object_loop_shrinks n s kvs r :
  object_loop scan n s = Some (kvs, r) -> length r < length s.
Proof.
  revert s kvs r. induction n as [|n IH]; intros s kvs r H; [discriminate|].
  cbn [object_loop] in H.
  destruct (scanstring s) as [[key s1]|] eqn:Hk; [|discriminate].
  apply scanstring_shrinks in Hk.
  pose proof (length_skip_ws s1) as Hw1.
  destruct (skip_ws s1) as [|colon s2]; [discriminate|].
  destruct (colon =? 58)%N; [|discriminate].
  pose proof (length_skip_ws s2) as Hw2.
  destruct (scan (skip_ws s2)) as [[v s3]|] eqn:Hv; [|discriminate].
  apply scan_shrinks in Hv.
  pose proof (length_skip_ws s3) as Hw3.
  destruct (skip_ws s3) as [|c s4]; [discriminate|].
  destruct (c =? 125)%N; [injection H as <- <-; simpl in *; lia|].
  destruct (c =? 44)%N; [|discriminate].
  pose proof (length_skip_ws s4) as Hw4.
  destruct (skip_ws s4) as [|q s5]; [discriminate|].
  destruct (q =? 34)%N; [|discriminate].
  destruct (object_loop scan n s5) as [[kvs' r']|] eqn:Hl; [|discriminate].
  injection H as <- <-. apply IH in Hl. simpl in *. lia.
Qed.

Lemma object_loop_enough n m s :
  length s < n -> length s < m -> object_loop scan n s = object_loop scan m s.
Proof.
  revert m s. induction n as [|n IH]; intros m s Hn Hm; [lia|].
  destruct m as [|m]; [lia|].
  cbn [object_loop].
  destruct (scanstring s) as [[key s1]|] eqn:Hk; [|reflexivity].
  apply scanstring_shrinks in Hk.
  pose proof (length_skip_ws s1) as Hw1.
  destruct (skip_ws s1) as [|colon s2]; [reflexivity|].
  destruct (colon =? 58)%N; [|reflexivity].
  pose proof (length_skip_ws s2) as Hw2.
  destruct (scan (skip_ws s2)) as [[v s3]|] eqn:Hv; [|reflexivity].
  apply scan_shrinks in Hv.
  pose proof (length_skip_ws s3) as Hw3.
  destruct (skip_ws s3) as [|c s4]; [reflexivity|].
  destruct (c =? 125)%N; [reflexivity|].
  destruct (c =? 44)%N; [|reflexivity].
  pose proof (length_skip_ws s4) as Hw4.
  destruct (skip_ws s4) as [|q s5]; [reflexivity|].
  destruct (q =? 34)%N; [|reflexivity].
  rewrite (IH m s5); [reflexivity | simpl in *; lia ..].
Qed.

Lemma object_loop_ext n s :
  (forall t, length t <= length s -> scan t = scan' t) ->
  object_loop scan n s = object_loop scan' n s.
Proof.
  revert s. induction n as [|n IH]; intros s Hext; [reflexivity|].
  cbn [object_loop].
  destruct (scanstring s) as [[key s1]|] eqn:Hk; [|reflexivity].
  apply scanstring_shrinks in Hk.
  pose proof (length_skip_ws s1) as Hw1.
  destruct (skip_ws s1) as [|colon s2]; [reflexivity|].
  destruct (colon =? 58)%N; [|reflexivity].
  pose proof (length_skip_ws s2) as Hw2.
  rewrite <- (Hext (skip_ws s2)) by (simpl in *; lia).
  destruct (scan (skip_ws s2)) as [[v s3]|] eqn:Hv; [|reflexivity].
  apply scan_shrinks in Hv.
  pose proof (length_skip_ws s3) as Hw3.
  destruct (skip_ws s3) as [|c s4]; [reflexivity|].
  destruct (c =? 125)%N; [reflexivity|].
  destruct (c =? 44)%N; [|reflexivity].
  pose proof (length_skip_ws s4) as Hw4.
  destruct (skip_ws s4) as [|q s5]; [reflexivity|].
  destruct (q =? 34)%N; [|reflexivity].
  rewrite IH; [reflexivity|].
  intros t Ht. apply Hext. simpl in *. lia.
Qed.

Lemma parse_object_shrinks s v r :
  parse_object scan s = Some (v, r) -> length r < length s.
Proof.
  unfold parse_object. intros H.
  pose proof (length_skip_ws s) as Hw.
  destruct (skip_ws s) as [|c s1]; [discriminate|].
  destruct (c =? 125)%N; [injection H as <- <-; simpl in *; lia|].
  destruct (c =? 34)%N; [|discriminate].
  destruct (object_loop scan (S (length s)) s1) as [[kvs r']|] eqn:Hl; [|discriminate].
  injection H as <- <-. apply object_loop_shrinks in Hl. simpl in *. lia.
Qed.

Lemma parse_object_ext s :
  (forall t, length t <= length s -> scan t = scan' t) ->
  parse_object scan s = parse_object scan' s.
Proof.
  intros Hext. unfold parse_object.
  pose proof (length_skip_ws s) as Hw.
  destruct (skip_ws s) as [|c s1]; [reflexivity|].
  destruct (c =? 125)%N; [reflexivity|].
  destruct (c =? 34)%N; [|reflexivity].
  rewrite object_loop_ext; [reflexivity|].
  intros t Ht. apply Hext. simpl in *. lia.
Qed.

End Loops.

Lemma length_skipn_cons (k : nat) (c : char) (s : str) :
  length (skipn (S k) (c :: s)) < length (c :: s).
Proof. rewrite length_skipn. simpl. lia. Qed.

Ltac literal_case H :=
  match type of H with
  | Some (_, ?x) = Some (_, ?r) =>
      let E := fresh in
      assert (E : r = x) by congruence; rewrite E; apply length_skipn_cons
  end.

Lemma scan_once_shrinks depth : shrinks (scan_once depth).
Proof.
  induction depth as [|d IH]; intros s v r H; [discriminate|].
  destruct s as [|c s1]; [discriminate|].
  cbn [scan_once] in H.
  destruct (c =? 34)%N.
  { destruct (scanstring s1) as [[t r']|] eqn:Hs; [|discriminate].
    injection H as <- <-.
    apply scanstring_shrinks in Hs. simpl. lia. }
  destruct (c =? 123)%N.
  { apply (parse_object_shrinks IH) in H. simpl. lia. }
  destruct (c =? 91)%N.
  { apply (parse_array_shrinks IH) in H. simpl. lia. }
  destruct (starts_with (u "null") (c :: s1));
    [literal_case H|].
  destruct (starts_with (u "true") (c :: s1));
    [literal_case H|].
  destruct (starts_with (u "false") (c :: s1));
    [literal_case H|].
  destruct (match_number (c :: s1)) as [[v' r']|] eqn:Hn.
  { injection H as <- <-. now apply match_number_shrinks in Hn. }
  destruct (starts_with (u "NaN") (c :: s1));
    [literal_case H|].
  destruct (starts_with (u "Infinity") (c :: s1));
    [literal_case H|].
  destruct (starts_with (u "-Infinity") (c :: s1));
    [literal_case H|].
  discriminate.
Qed.

(** A text of [n] characters nests fewer than [n] levels: any depth
    bound above the length gives the same answer. *)
Lemma scan_once_enough d1 :
  forall d2 s, length s < d1 -> length s < d2 -> scan_once d1 s = scan_once d2 s.
Proof.
  induction d1 as [|d1 IH]; intros d2 s H1 H2; [lia|].
  destruct d2 as [|d2]; [lia|].
  destruct s as [|c s1]; [reflexivity|].
  cbn [scan_once].
  destruct (c =? 34)%N; [reflexivity|].
  destruct (c =? 123)%N.
  { apply parse_object_ext; [apply scan_once_shrinks|].
    intros t Ht. apply IH; simpl in *; lia. }
  destruct (c =? 91)%N; [|reflexivity].
  apply parse_array_ext; [apply scan_once_shrinks|].
  intros t Ht. apply IH; simpl in *; lia.
Qed.

(** [json.loads] does not depend on the depth bound it runs with. *)
Lemma json_loads_depth s d :
  length s < d ->
  json_loads s =
  if starts_with [65279%N] s then Raise JSONDecodeError
  else
    match scan_once d (skip_ws s) with
    | None => Raise JSONDecodeError
    | Some (v, rest) =>
        match skip_ws rest with
        | [] => Ok v
        | _ :: _ => Raise JSONDecodeError
        end
    end.
Proof.
  intros Hd. unfold json_loads.
  pose proof (length_skip_ws s).
  rewrite (@scan_once_enough (S (length s)) d (skip_ws s)) by lia.
  reflexivity.
Qed.

End DecoderBounds.

(** ** The claims on slicing *)

Section SliceClaims.
Context {FM : FloatModel}.

(** C1, as the code has it.  For a token sequence [obj] of length
    [n >= 8], the inner payload sequence the script builds,
    [obj[:-6] + obj[-2:]], is [obj[0:n-6] + obj[n-2:n]] and has length
    [n - 4]; for the sequence 1 to 8 it is 1, 2, 7, 8. *)
Theorem inner_payload_sequence (obj : list value) :
  8 <= length obj ->
  let n := Z.of_nat (length obj) in
  reshape_obj (VList obj) =
    Ok (VList (py_slice (Some 0%Z) (Some (n - 6)%Z) obj ++
               py_slice (Some (n - 2)%Z) (Some n) obj)) /\
  length (reshape obj) = length obj - 4 /\
  reshape_obj (VList (map VInt [1; 2; 3; 4; 5; 6; 7; 8]%Z)) =
    Ok (VList (map VInt [1; 2; 7; 8]%Z)).
Proof.
  intros Hlen n. split; [|split].
  - cbn [reshape_obj]. do 2 f_equal.
    rewrite reshape_firstn_skipn. subst n.
    replace (Z.of_nat (length obj) - 6)%Z with (Z.of_nat (length obj - 6)) by lia.
    replace (Z.of_nat (length obj) - 2)%Z with (Z.of_nat (length obj - 2)) by lia.
    change 0%Z with (Z.of_nat 0).
    rewrite !py_slice_nonneg by lia.
    cbn [skipn]. rewrite Nat.sub_0_r. f_equal.
    rewrite firstn_all2; [reflexivity|]. rewrite length_skipn. lia.
  - rewrite length_reshape.
    destruct (Nat.leb_spec 6 (length obj)); lia.
  - reflexivity.
Qed.

(** C9.  The transform [obj[:-6] + obj[-2:]] is defined on lists of every
    length: the first slice is empty below six elements, the second slice
    is the last [min 2 (len obj)] elements, the result has [len obj - 4]
    elements from six elements on and [min 2 (len obj)] below, the empty
    list gives the empty list, and on a list the script's expression
    never raises. *)
Theorem reshape_total (obj : list value) :
  py_slice None (Some (-6)%Z) obj =
    (if length obj <? 6 then [] else firstn (length obj - 6) obj) /\
  py_slice (Some (-2)%Z) None obj =
    skipn (length obj - Nat.min 2 (length obj)) obj /\
  reshape obj =
    (if length obj <? 6 then [] else firstn (length obj - 6) obj) ++
    skipn (length obj - Nat.min 2 (length obj)) obj /\
  length (reshape obj) =
    (if 6 <=? length obj then length obj - 4 else Nat.min 2 (length obj)) /\
  reshape (@nil value) = [] /\
  reshape_obj (VList obj) = Ok (VList (reshape obj)).
Proof.
  repeat split.
  - change (-6)%Z with (- Z.of_nat 6)%Z. rewrite py_slice_drop_last.
    destruct (Nat.ltb_spec (length obj) 6) as [H|H]; [|reflexivity].
    replace (length obj - 6) with 0 by lia. reflexivity.
  - change (-2)%Z with (- Z.of_nat 2)%Z. rewrite py_slice_take_last.
    f_equal. lia.
  - rewrite reshape_firstn_skipn. f_equal.
    + destruct (Nat.ltb_spec (length obj) 6) as [H|H]; [|reflexivity].
      replace (length obj - 6) with 0 by lia. reflexivity.
    + f_equal. lia.
  - apply length_reshape.
Qed.

End SliceClaims.

(** ** The claims on the two rewrites *)

Section RewriteClaims.

(** C5, as the code has it.  Deleting every [)]}'] is idempotent on a
    body exactly when the first pass leaves no [)]}'] behind: copies that
    only come together once the text between them is gone are left for a
    second pass. *)
Theorem strip_idempotent_iff (body : str) :
  strip_xssi (strip_xssi body) = strip_xssi body <->
  occurs XSSI_PREFIX (strip_xssi body) = false.
Proof.
  split.
  - intros Heq. destruct (occurs XSSI_PREFIX (strip_xssi body)) eqn:Ho; [|reflexivity].
    exfalso.
    assert (Hne : XSSI_PREFIX <> []) by discriminate.
    destruct (replace_scan_delete_length Hne (n := length (strip_xssi body))
                (strip_xssi body) (le_n _)) as [_ Hlt].
    specialize (Hlt Ho).
    change (replace_scan XSSI_PREFIX [] 0 (strip_xssi body))
      with (strip_xssi (strip_xssi body)) in Hlt.
    rewrite Heq in Hlt. lia.
  - apply strip_xssi_free.
Qed.

(** C8.  Both rewrites reach every copy of their pattern, wherever it
    stands: a body made of texts free of [)]}'] with [)]}'] between them
    loses every one of these separators, and an attribute value made of
    texts free of [%.@.] with [%.@.] between them gets [["garturlreq",]
    in the place of every one. *)
Theorem rewrites_reach_every_copy (parts pieces : list str) :
  Forall (fun t => occurs XSSI_PREFIX t = false) parts ->
  Forall (fun t => occurs TOKEN_PREFIX t = false) pieces ->
  strip_xssi (join XSSI_PREFIX parts) = concat parts /\
  rewrite_token (join TOKEN_PREFIX pieces) = join GARTURLREQ pieces.
Proof.
  intros Hparts Hpieces. split.
  - rewrite <- join_nil. apply replace_scan_join; [reflexivity|discriminate|assumption].
  - apply replace_scan_join; [reflexivity|discriminate|assumption].
Qed.

End RewriteClaims.

(** ** Runs of the script *)

Section RunFacts.
Context {FM : FloatModel} {ML : Markup}.
Implicit Types net : Transport.

(** Where a run can stop, and the trace it leaves there. *)
Lemma run_unfold net :
  run net =
  match http_get net google_rss_url with
  | Raise e => (Raise e, [EvGet google_rss_url])
  | Ok resp =>
      match form_data_of (text resp) with
      | Raise e => (Raise e, [EvGet google_rss_url])
      | Ok payload =>
          match http_post net url headers payload with
          | Raise e => (Raise e, [EvGet google_rss_url; EvPost url headers payload])
          | Ok response =>
              match article_url_of (text response) with
              | Raise e =>
                  (Raise e, [EvGet google_rss_url; EvPost url headers payload])
              | Ok article_url =>
                  (Ok tt, [EvGet google_rss_url; EvPost url headers payload;
                           EvPrint article_url])
              end
          end
      end
  end.
Proof.
  unfold run, main, bind, requests_get, requests_post, lift, print, form_data_of.
  cbn [app].
  destruct (http_get net google_rss_url) as [resp|e]; [|reflexivity].
  destruct (data_of (text resp)) as [data|e]; [|reflexivity].
  cbn [bind_result].
  destruct (obj_of data) as [obj|e]; [|reflexivity].
  cbn [bind_result].
  destruct (payload_of obj) as [payload|e]; [|reflexivity].
  destruct (http_post net url headers payload) as [response|e]; [|reflexivity].
  destruct (article_url_of (text response)) as [article_url|e]; reflexivity.
Qed.

Lemma article_url_of_spec (body : str) :
  article_url_of body = article_url_spec (strip_xssi body).
Proof.
  unfold article_url_of, array_string_of, article_url_spec.
  destruct (json_loads (strip_xssi body)) as [x|e]; [|reflexivity].
  cbn [bind_result].
  destruct (py_index x 0) as [x0|e]; [|reflexivity].
  cbn [bind_result].
  destruct (py_index x0 2) as [a|e]; reflexivity.
Qed.

(** The serialized envelope, as text. *)
Lemma json_dumps_envelope (inner : str) :
  json_dumps (envelope inner) =
  u "[[[" ++ quoted "Fbv4je" ++ u ", " ++ encode_basestring_ascii inner ++
  u ", " ++ quoted "null" ++ u ", " ++ quoted "generic" ++ u "]]]".
Proof.
  unfold envelope. cbn [json_dumps map join].
  change (encode_basestring_ascii (u "Fbv4je")) with (quoted "Fbv4je").
  change (encode_basestring_ascii (u "null")) with (quoted "null").
  change (encode_basestring_ascii (u "generic")) with (quoted "generic").
  change (u "[[[") with (u "[" ++ u "[" ++ u "[").
  change (u "]]]") with (u "]" ++ u "]" ++ u "]").
  repeat rewrite <- app_assoc. reflexivity.
Qed.

(** The form data has one field. *)
Lemma form_data_single_field (markup : str) payload :
  form_data_of markup = Ok payload -> exists f_req, payload = [(u "f.req", f_req)].
Proof.
  unfold form_data_of, payload_of.
  destruct (data_of markup) as [data|]; [|discriminate]. cbn [bind_result].
  destruct (obj_of data) as [obj|]; [|discriminate]. cbn [bind_result].
  destruct (reshape_obj obj) as [inner|]; [|discriminate]. cbn [bind_result].
  intros H. injection H as <-. eauto.
Qed.

(** What the steps between the two calls can raise: never an exception of
    the transport. *)
Lemma json_loads_raises (s : str) e : json_loads s = Raise e -> e = JSONDecodeError.
Proof.
  unfold json_loads.
  destruct (starts_with [65279%N] s); [congruence|].
  destruct (scan_once (S (length s)) (skip_ws s)) as [[v rest]|]; [|congruence].
  destruct (skip_ws rest); [discriminate | congruence].
Qed.

Lemma py_index_raises (x : value) i e :
  py_index x i = Raise e -> e = IndexError \/ e = KeyError \/ e = TypeError.
Proof.
  destruct x; simpl; try (intros H; injection H as <-; tauto).
  - destruct (nth_error s i); [discriminate|]. intros H; injection H as <-; tauto.
  - destruct (nth_error items i); [discriminate|]. intros H; injection H as <-; tauto.
Qed.

Lemma form_data_raises (markup : str) e :
  form_data_of markup = Raise e ->
  e = AttributeError \/ e = JSONDecodeError \/ e = TypeError.
Proof.
  unfold form_data_of, data_of, payload_of.
  destruct (select_one markup (u "c-wiz[data-p]")) as [tag|];
    [|intros H; injection H as <-; tauto].
  cbn [bind_result].
  destruct (tag_get tag (u "data-p")) as [d|];
    [|cbn; intros H; injection H as <-; tauto].
  cbn [obj_of].
  destruct (json_loads (rewrite_token d)) as [obj|e'] eqn:Hl.
  - cbn [bind_result].
    destruct obj; cbn; try discriminate; intros H; injection H as <-; tauto.
  - apply json_loads_raises in Hl. subst e'. cbn. intros H; injection H as <-; tauto.
Qed.

Lemma article_url_raises (body : str) e :
  article_url_of body = Raise e ->
  e = JSONDecodeError \/ e = IndexError \/ e = KeyError \/ e = TypeError.
Proof.
  unfold article_url_of, array_string_of.
  destruct (json_loads (strip_xssi body)) as [x|e'] eqn:Hx.
  2:{ apply json_loads_raises in Hx. subst. cbn. intros H; injection H as <-; tauto. }
  cbn [bind_result].
  destruct (py_index x 0) as [x0|e'] eqn:H0.
  2:{ apply py_index_raises in H0. cbn. intros H; injection H as <-; tauto. }
  cbn [bind_result].
  destruct (py_index x0 2) as [a|e'] eqn:H2.
  2:{ apply py_index_raises in H2. cbn. intros H; injection H as <-; tauto. }
  cbn [bind_result].
  destruct (json_loads_obj a) as [y|e'] eqn:Hy.
  2:{ cbn. intros H; injection H as <-.
      destruct a; cbn in Hy; try (injection Hy as <-; tauto).
      apply json_loads_raises in Hy. tauto. }
  cbn [bind_result]. intros H. apply py_index_raises in H. tauto.
Qed.

End RunFacts.

(** ** The claims on runs *)

Section RunClaims.
Context {FM : FloatModel} {ML : Markup} {CD : Codecs}.
Implicit Types net : Transport.

(** C2, as the code has it.  End to end with a mocked transport: when
    the page fetched carries the attribute value
    [%.@."id1",2,3,4,5,6,7,8]] (the rewrite supplies the only opening
    bracket), the parsed token is ["garturlreq","id1",2,3,4,5,6,7,8], of
    9 elements, the inner payload sequence is
    ["garturlreq","id1",2,7,8], the form field [f.req] of the POST is the
    serialized envelope, and when the POST is answered with the body
    [)]}'\n[[0,0,"[0,\"https://example.com/article\"]"]]] the run prints
    [https://example.com/article]. *)
Theorem end_to_end_scenario net (page answer : Response) (tag : Tag) :
  http_get net google_rss_url = Ok page ->
  select_one (text page) (u "c-wiz[data-p]") = Some tag ->
  tag_get tag (u "data-p") = Some Scenario.page_data ->
  http_post net url headers [(u "f.req", Scenario.scenario_f_req)] = Ok answer ->
  text answer = Scenario.answer_body ->
  obj_of (Some Scenario.page_data) = Ok (VList Scenario.scenario_obj) /\
  length Scenario.scenario_obj = 9 /\
  reshape_obj (VList Scenario.scenario_obj) = Ok (VList Scenario.scenario_inner) /\
  json_dumps (envelope (json_dumps (VList Scenario.scenario_inner))) = Scenario.scenario_f_req /\
  run net =
    (Ok tt, [EvGet google_rss_url;
             EvPost url headers [(u "f.req", Scenario.scenario_f_req)];
             EvPrint (VStr Scenario.article)]).
Proof.
  intros Hget Hsel Hattr Hpost Hbody.
  assert (Hobj : obj_of (Some Scenario.page_data) = Ok (VList Scenario.scenario_obj))
    by (vm_compute; reflexivity).
  assert (Hin : reshape_obj (VList Scenario.scenario_obj) = Ok (VList Scenario.scenario_inner))
    by (vm_compute; reflexivity).
  assert (Hreq : json_dumps (envelope (json_dumps (VList Scenario.scenario_inner)))
                 = Scenario.scenario_f_req)
    by (vm_compute; reflexivity).
  repeat (split; [assumption || reflexivity|]).
  rewrite run_unfold, Hget.
  unfold form_data_of, data_of. rewrite Hsel, Hattr. cbn [bind_result].
  rewrite Hobj. cbn [bind_result]. unfold payload_of. rewrite Hin. cbn [bind_result].
  rewrite Hreq, Hpost, Hbody.
  replace (article_url_of Scenario.answer_body) with (Ok (VStr Scenario.article))
    by (vm_compute; reflexivity).
  reflexivity.
Qed.

(** C3.  For every token sequence [obj] a run extracts, the POST carries
    one form field, [f.req], whose value is the JSON text of
    [[["Fbv4je", innerPayload, "null", "generic"]]], where [innerPayload]
    is the JSON text of the transformed sequence, so a JSON text encoded
    again as a JSON string between the fixed literals. *)
Theorem f_req_double_encoding net (page : Response) (data : option str)
    (obj : list value) :
  http_get net google_rss_url = Ok page ->
  data_of (text page) = Ok data ->
  obj_of data = Ok (VList obj) ->
  let innerPayload := json_dumps (VList (reshape obj)) in
  let f_req :=
    json_dumps
      (VList [VList [VList [VStr (u "Fbv4je"); VStr innerPayload;
                            VStr (u "null"); VStr (u "generic")]]]) in
  nth_error (snd (run net)) 1 = Some (EvPost url headers [(u "f.req", f_req)]) /\
  f_req =
    u "[[[" ++ quoted "Fbv4je" ++ u ", " ++ encode_basestring_ascii innerPayload ++
    u ", " ++ quoted "null" ++ u ", " ++ quoted "generic" ++ u "]]]".
Proof.
  intros Hget Hdata Hobj innerPayload f_req. split.
  - rewrite run_unfold, Hget. unfold form_data_of. rewrite Hdata. cbn [bind_result].
    rewrite Hobj. cbn [bind_result payload_of reshape_obj].
    fold innerPayload. change (json_dumps (envelope innerPayload)) with f_req.
    destruct (http_post net url headers [(u "f.req", f_req)]) as [response|e];
      [|reflexivity].
    destruct (article_url_of (text response)); reflexivity.
  - apply json_dumps_envelope.
Qed.

(** C4, as the code has it.  For every POST response body made of the
    prefix [)]}'] and a remainder without a further [)]}'], the value
    extracted is what the remainder gives when it is parsed as JSON,
    element 0 is taken, then element 2 of that, which is parsed as JSON
    again, then element 1, with the same failure where one of these steps
    fails; for the body [)]}'\n[[1,2,"[3,4]"]]] the value is 4. *)
Theorem extraction_after_prefix (rest : str) :
  occurs XSSI_PREFIX rest = false ->
  article_url_of (XSSI_PREFIX ++ rest) = article_url_spec rest /\
  article_url_of (XSSI_PREFIX ++ Scenario.nested_rest) = Ok (VInt 4).
Proof.
  intros Hfree. split.
  - now rewrite article_url_of_spec, strip_xssi_prefix.
  - vm_compute. reflexivity.
Qed.

(** C6.  When the page fetched has no token (the selector finds no
    element, or the element it finds has an empty [data-p]), the run
    fails while it reads the page, with an exception the specification
    files under [ParseError], and the trace holds the GET alone: no POST
    is made. *)
Theorem no_token_no_post net (page : Response) :
  http_get net google_rss_url = Ok page ->
  has_token (text page) = false ->
  exists e,
    run net = (Raise e, [EvGet google_rss_url]) /\
    (e = AttributeError \/ e = JSONDecodeError) /\
    spec_error_class e = ParseError.
Proof.
  intros Hget Htok. rewrite run_unfold, Hget.
  unfold has_token in Htok. unfold form_data_of, data_of.
  destruct (select_one (text page) (u "c-wiz[data-p]")) as [tag|].
  - destruct (tag_get tag (u "data-p")) as [[|c d]|]; [| discriminate |].
    + exists JSONDecodeError. cbn [bind_result obj_of].
      replace (json_loads (rewrite_token [])) with (@Raise value JSONDecodeError)
        by (vm_compute; reflexivity).
      cbn [bind_result]. repeat split. now right.
    + exists AttributeError. cbn [bind_result obj_of]. repeat split. now left.
  - exists AttributeError. cbn [bind_result]. repeat split. now left.
Qed.

(** C7, as the code has it.  The status of a response is never read: a
    run with any pair of status codes on the two responses goes as the
    run with the codes the transport gave.  A call that raises stops the
    run with that exception, after the GET or after the POST, and nothing
    is printed; and a run fails on the network side only so: when it
    stops with an exception of the class [NetworkError], it is the GET or
    the POST itself that raised it, and the trace ends at that call. *)
Theorem status_is_not_read net (get_code post_code : Z) :
  run (with_status get_code post_code net) = run net /\
  (forall e, http_get net google_rss_url = Raise e ->
             run net = (Raise e, [EvGet google_rss_url])) /\
  (forall page payload e,
     http_get net google_rss_url = Ok page ->
     form_data_of (text page) = Ok payload ->
     http_post net url headers payload = Raise e ->
     run net = (Raise e, [EvGet google_rss_url; EvPost url headers payload])) /\
  (forall what, spec_error_class (RequestException what) = NetworkError) /\
  (forall e tr,
     run net = (Raise e, tr) ->
     spec_error_class e = NetworkError ->
     (http_get net google_rss_url = Raise e /\ tr = [EvGet google_rss_url]) \/
     (exists page payload,
        http_get net google_rss_url = Ok page /\
        form_data_of (text page) = Ok payload /\
        http_post net url headers payload = Raise e /\
        tr = [EvGet google_rss_url; EvPost url headers payload])).
Proof.
  split; [|split; [|split; [|split]]].
  - rewrite !run_unfold. cbn [with_status http_get http_post].
    destruct (http_get net google_rss_url) as [page|e]; [|reflexivity].
    cbn [map_result set_status text].
    destruct (form_data_of (text page)) as [payload|e]; [|reflexivity].
    destruct (http_post net url headers payload) as [answer|e]; reflexivity.
  - intros e Hget. now rewrite run_unfold, Hget.
  - intros page payload e Hget Hform Hpost.
    now rewrite run_unfold, Hget, Hform, Hpost.
  - reflexivity.
  - intros e tr. rewrite run_unfold.
    destruct (http_get net google_rss_url) as [page|e0].
    2:{ intros H _. left. split; congruence. }
    destruct (form_data_of (text page)) as [payload|e0] eqn:Hform.
    2:{ intros H Hclass. exfalso.
        assert (e0 = e) by congruence. subst e0.
        apply form_data_raises in Hform.
        destruct Hform as [-> | [-> | ->]]; discriminate Hclass. }
    destruct (http_post net url headers payload) as [answer|e0] eqn:Hpost.
    2:{ intros H _. right. exists page, payload.
        repeat (split; [congruence|]). congruence. }
    destruct (article_url_of (text answer)) as [article_url|e0] eqn:Hart;
      [discriminate|].
    intros H Hclass. exfalso.
    assert (e0 = e) by congruence. subst e0.
    apply article_url_raises in Hart.
    destruct Hart as [-> | [-> | [-> | ->]]]; discriminate Hclass.
Qed.


End RunClaims.

(** ** Concrete runs *)

Import Scenario.

Lemma inner_payload_sequence_witness :
  8 <= length (map (@VInt TextFloats) [1; 2; 3; 4; 5; 6; 7; 8]%Z) /\
  length (reshape (map (@VInt TextFloats) [1; 2; 3; 4; 5; 6; 7; 8]%Z)) = 4.
Proof.
  split; [simpl; lia|].
  apply (@inner_payload_sequence TextFloats (map VInt [1; 2; 3; 4; 5; 6; 7; 8]%Z)).
  simpl. lia.
Defined.

(** C1 as the specification words it fails on its own example: the
    sequence 1 to 8 does not come out as 1, 2, 3, 4, 7, 8. *)
Lemma inner_payload_example_refuted :
  reshape [1; 2; 3; 4; 5; 6; 7; 8]%Z = [1; 2; 7; 8]%Z /\
  reshape [1; 2; 3; 4; 5; 6; 7; 8]%Z <> [1; 2; 3; 4; 7; 8]%Z.
Proof. split; [reflexivity | discriminate]. Qed.

Lemma end_to_end_scenario_witness :
  run (FM := TextFloats) (ML := PlainMarkup) served =
    (Ok tt, [EvGet google_rss_url;
             EvPost url headers [(u "f.req", scenario_f_req)];
             EvPrint (VStr article)]).
Proof.
  apply (@end_to_end_scenario TextFloats PlainMarkup served
           (response 200 page_body) (response 200 answer_body) c_wiz);
    vm_compute; reflexivity.
Defined.

(** C2 as the specification writes its page: the attribute value
    [%.@.["id1",2,3,4,5,6,7,8]] becomes
    [["garturlreq",["id1",2,3,4,5,6,7,8]], with a bracket left open; it
    is no JSON text, the run stops there and posts nothing. *)
Lemma scenario_as_written_fails :
  data_of (ML := PlainMarkup) page_body_spec =
    Ok (Some (u "%.@.[" ++ quoted "id1" ++ u ",2,3,4,5,6,7,8]")) /\
  obj_of (FM := TextFloats) (Some (u "%.@.[" ++ quoted "id1" ++ u ",2,3,4,5,6,7,8]")) =
    Raise JSONDecodeError /\
  run (FM := TextFloats) (ML := PlainMarkup)
      (fixed (response 200 page_body_spec) (response 200 answer_body)) =
    (Raise JSONDecodeError, [EvGet google_rss_url]).
Proof. repeat split; vm_compute; reflexivity. Qed.

Lemma f_req_double_encoding_witness :
  nth_error (snd (run (FM := TextFloats) (ML := PlainMarkup) served)) 1 =
    Some (EvPost url headers [(u "f.req", scenario_f_req)]).
Proof.
  apply (@f_req_double_encoding TextFloats PlainMarkup served
           (response 200 page_body) (Some page_data) scenario_obj);
    vm_compute; reflexivity.
Defined.

Lemma extraction_after_prefix_witness :
  occurs XSSI_PREFIX nested_rest = false /\
  article_url_of (FM := TextFloats) (XSSI_PREFIX ++ nested_rest) =
    article_url_spec nested_rest.
Proof.
  split; [reflexivity|].
  apply (@extraction_after_prefix TextFloats nested_rest). reflexivity.
Defined.

(** C4 as the specification words it fails when the remainder holds the
    prefix again: the remainder parses, taken as it is it gives the text
    [)]}'], and the script, which deletes that copy too, gives the empty
    text. *)
Lemma extraction_differs_inside :
  starts_with XSSI_PREFIX (XSSI_PREFIX ++ inner_xssi_rest) = true /\
  (exists x, json_loads (FM := TextFloats) inner_xssi_rest = Ok x) /\
  article_url_spec (FM := TextFloats) inner_xssi_rest = Ok (VStr XSSI_PREFIX) /\
  article_url_of (FM := TextFloats) (XSSI_PREFIX ++ inner_xssi_rest) = Ok (VStr []).
Proof.
  split; [reflexivity|]. split; [eexists; vm_compute; reflexivity|].
  split; vm_compute; reflexivity.
Qed.

Lemma strip_idempotent_iff_witness :
  strip_xssi (strip_xssi (XSSI_PREFIX ++ nested_rest)) =
  strip_xssi (XSSI_PREFIX ++ nested_rest).
Proof.
  apply (proj2 (strip_idempotent_iff (XSSI_PREFIX ++ nested_rest))). reflexivity.
Defined.

(** C5 as stated fails on [)])]}'}']: the first pass deletes the copy in
    the middle and leaves [)]}'], which the second pass deletes. *)
Lemma strip_twice_differs :
  strip_xssi nested_xssi = XSSI_PREFIX /\
  strip_xssi (strip_xssi nested_xssi) = [] /\
  strip_xssi (strip_xssi nested_xssi) <> strip_xssi nested_xssi.
Proof.
  split; [reflexivity|]. split; [reflexivity|].
  intros H. vm_compute in H. discriminate H.
Qed.

Lemma no_token_no_post_witness :
  exists e,
    run (FM := TextFloats) (ML := PlainMarkup)
        (fixed (response 200 (u "<html><body></body></html>")) (response 200 answer_body)) =
      (Raise e, [EvGet google_rss_url]) /\
    (e = AttributeError \/ e = JSONDecodeError) /\
    spec_error_class e = ParseError.
Proof.
  apply (@no_token_no_post TextFloats PlainMarkup _
           (response 200 (u "<html><body></body></html>"))); reflexivity.
Defined.

Lemma status_is_not_read_witness :
  run (FM := TextFloats) (ML := PlainMarkup)
      (get_fails (RequestException (u "connection refused"))) =
    (Raise (RequestException (u "connection refused")), [EvGet google_rss_url]) /\
  run (FM := TextFloats) (ML := PlainMarkup)
      (post_fails (response 200 page_body) (RequestException (u "timed out"))) =
    (Raise (RequestException (u "timed out")),
     [EvGet google_rss_url; EvPost url headers [(u "f.req", scenario_f_req)]]) /\
  ((http_get (post_fails (response 200 page_body) (RequestException (u "timed out")))
             google_rss_url = Raise (RequestException (u "timed out")) /\
    [EvGet google_rss_url; EvPost url headers [(u "f.req", scenario_f_req)]] =
      [EvGet google_rss_url]) \/
   (exists page payload,
      http_get (post_fails (response 200 page_body) (RequestException (u "timed out")))
               google_rss_url = Ok page /\
      form_data_of (FM := TextFloats) (ML := PlainMarkup) (text page) = Ok payload /\
      http_post (post_fails (response 200 page_body) (RequestException (u "timed out")))
                url headers payload = Raise (RequestException (u "timed out")) /\
      [EvGet google_rss_url; EvPost url headers [(u "f.req", scenario_f_req)]] =
        [EvGet google_rss_url; EvPost url headers payload])).
Proof.
  split; [|split].
  - apply (proj1 (proj2 (@status_is_not_read TextFloats PlainMarkup
                           (get_fails (RequestException (u "connection refused")))
                           200%Z 200%Z))).
    reflexivity.
  - apply (proj1 (proj2 (proj2 (@status_is_not_read TextFloats PlainMarkup
                           (post_fails (response 200 page_body)
                                       (RequestException (u "timed out")))
                           200%Z 200%Z)))
             (response 200 page_body));
      vm_compute; reflexivity.
  - apply (proj2 (proj2 (proj2 (proj2 (@status_is_not_read TextFloats PlainMarkup
                           (post_fails (response 200 page_body)
                                       (RequestException (u "timed out")))
                           200%Z 200%Z)))));
      vm_compute; reflexivity.
Defined.

(** C7 as stated fails on the code: with status 404 on the page and 500
    on the answer, both bodies well formed, the run prints the URL. *)
Lemma non_2xx_still_prints :
  status_code (response 404 page_body) = 404%Z /\
  status_code (response 500 answer_body) = 500%Z /\
  run (FM := TextFloats) (ML := PlainMarkup) refused =
    (Ok tt, [EvGet google_rss_url;
             EvPost url headers [(u "f.req", scenario_f_req)];
             EvPrint (VStr article)]).
Proof. repeat split; vm_compute; reflexivity. Qed.

Lemma rewrites_reach_every_copy_witness :
  strip_xssi (XSSI_PREFIX ++ u "[1," ++ XSSI_PREFIX ++ u "2]") = u "[1,2]" /\
  rewrite_token (TOKEN_PREFIX ++ u "1," ++ TOKEN_PREFIX ++ u "2]]") =
    GARTURLREQ ++ u "1," ++ GARTURLREQ ++ u "2]]".
Proof.
  apply (@rewrites_reach_every_copy [[]; u "[1,"; u "2]"] [[]; u "1,"; u "2]]"]);
    repeat constructor.
Defined.



(** * Beyond the claims *)

(** ** The shape of a run *)

Section RunShape.
Context {FM : FloatModel} {ML : Markup}.
Implicit Types net : Transport.

(** X1.  Whatever the transport answers, a run makes one GET, to the
    redirect URL, then at most one POST, to the batch-execute URL with
    the fixed headers and the single form field [f.req], then prints at
    most one value; it returns normally exactly when it has printed. *)
Theorem run_trace_shape net :
  (exists e, run net = (Raise e, [EvGet google_rss_url])) \/
  (exists e f_req,
     run net = (Raise e, [EvGet google_rss_url;
                          EvPost url headers [(u "f.req", f_req)]])) \/
  (exists f_req article_url,
     run net = (Ok tt, [EvGet google_rss_url;
                        EvPost url headers [(u "f.req", f_req)];
                        EvPrint article_url])).
Proof.
  rewrite run_unfold.
  destruct (http_get net google_rss_url) as [resp|e]; [|left; eauto].
  destruct (form_data_of (text resp)) as [payload|e] eqn:Hform; [|left; eauto].
  apply form_data_single_field in Hform as [f_req ->].
  right.
  destruct (http_post net url headers [(u "f.req", f_req)]) as [response|e];
    [|left; eauto].
  destruct (article_url_of (text response)) as [article_url|e]; [right|left]; eauto.
Qed.

End RunShape.

(** ** The shape of a response *)

Section ResponseShape.
Context {FM : FloatModel}.

(** A text of one character decodes, if at all, to an integer: a string
    and an array need two characters at least. *)
Lemma json_loads_one_char (c : char) y :
  json_loads [c] = Ok y -> exists z, y = VInt z.
Proof.
  unfold json_loads. cbn [starts_with length skip_ws].
  destruct (65279 =? c)%N; [discriminate|]. cbn [andb].
  destruct (is_ws c).
  - cbn. discriminate.
  - cbn [scan_once scanstring parse_object parse_array skip_ws].
    destruct (c =? 34)%N; [discriminate|].
    destruct (c =? 123)%N; [discriminate|].
    destruct (c =? 91)%N; [discriminate|].
    cbn [u map list_ascii_of_string starts_with].
    rewrite !andb_false_r.
    unfold match_number, match_integer.
    destruct (c =? 45)%N; [discriminate|].
    destruct (c =? 48)%N.
    + cbn. intros H. injection H as <-. eauto.
    + destruct (is_digit c); [|discriminate].
      cbn. intros H. injection H as <-. eauto.
Qed.

(** X3.  When the extraction succeeds, the response had the nested
    shape: the stripped body is a JSON array whose first element is an
    array whose third element is a string, and that string is the JSON
    text of an array, whose second element is the value extracted, or of
    a string, whose second character is. *)
Theorem printed_value_shape (body : str) (article_url : value) :
  article_url_of body = Ok article_url ->
  exists row more array_string,
    json_loads (strip_xssi body) = Ok (VList (VList row :: more)) /\
    nth_error row 2 = Some (VStr array_string) /\
    ((exists inner,
        json_loads array_string = Ok (VList inner) /\
        nth_error inner 1 = Some article_url) \/
     (exists t c,
        json_loads array_string = Ok (VStr t) /\
        nth_error t 1 = Some c /\ article_url = VStr [c])).
Proof.
  unfold article_url_of, array_string_of.
  destruct (json_loads (strip_xssi body)) as [x|]; [|discriminate].
  cbn [bind_result].
  destruct (py_index x 0) as [x0|] eqn:H0; [|discriminate]. cbn [bind_result].
  destruct (py_index x0 2) as [a|] eqn:H2; [|discriminate]. cbn [bind_result].
  destruct (json_loads_obj a) as [y|] eqn:Hy; [|discriminate]. cbn [bind_result].
  intros H1.
  destruct x as [| | | |s|items|]; try discriminate.
  - (* the response is a JSON string: its first character has no index 2 *)
    cbn [py_index] in H0. destruct (nth_error s 0) as [c|]; [|discriminate].
    injection H0 as <-. cbn [py_index nth_error] in H2. discriminate.
  - destruct items as [|first more]; [discriminate|].
    cbn [py_index nth_error] in H0. injection H0 as ->.
    destruct x0 as [| | | |s|row|]; try discriminate.
    + (* the first element is a string: its third character is no JSON array *)
      cbn [py_index] in H2. destruct (nth_error s 2) as [c|]; [|discriminate].
      injection H2 as <-. cbn [json_loads_obj] in Hy.
      apply json_loads_one_char in Hy as [z ->]. discriminate.
    + cbn [py_index] in H2. destruct (nth_error row 2) as [a'|] eqn:Hrow; [|discriminate].
      injection H2 as ->.
      destruct a as [| | | |array_string| |]; try discriminate.
      cbn [json_loads_obj] in Hy.
      exists row, more, array_string. split; [reflexivity|]. split; [assumption|].
      destruct y as [| | | |t|inner|]; try discriminate.
      * right. cbn [py_index] in H1. destruct (nth_error t 1) as [c|] eqn:Ht; [|discriminate].
        injection H1 as <-. eauto.
      * left. cbn [py_index] in H1. destruct (nth_error inner 1) as [v|] eqn:Hi; [|discriminate].
        injection H1 as <-. eauto.
Qed.

(** White space before the JSON text is skipped. *)
Lemma skip_ws_app (ws s : str) :
  forallb is_ws ws = true -> skip_ws (ws ++ s) = skip_ws s.
Proof.
  induction ws as [|c ws IH]; [reflexivity|].
  cbn [forallb app skip_ws]. intros H. apply andb_prop in H as [Hc Hws].
  rewrite Hc. now apply IH.
Qed.

Lemma scan_once_bom d (s : str) : scan_once d (65279%N :: s) = None.
Proof. destruct d; [reflexivity|]. cbn. reflexivity. Qed.

Lemma json_loads_leading_ws (ws s : str) :
  forallb is_ws ws = true -> json_loads (ws ++ s) = json_loads s.
Proof.
  intros Hws. destruct ws as [|c ws]; [reflexivity|].
  unfold json_loads.
  assert (Hc : is_ws c = true) by (cbn in Hws; now apply andb_prop in Hws).
  assert (Hbom : starts_with [65279%N] ((c :: ws) ++ s) = false).
  { cbn [app starts_with].
    destruct (N.eqb_spec 65279 c) as [<-|]; [discriminate Hc | reflexivity]. }
  rewrite Hbom, skip_ws_app by assumption.
  pose proof (length_skip_ws s) as Hl.
  rewrite (@scan_once_enough _ (S (length ((c :: ws) ++ s))) (S (length s)) (skip_ws s))
    by (rewrite ?length_app; cbn [length]; lia).
  destruct (starts_with [65279%N] s) eqn:Hs; [|reflexivity].
  destruct s as [|b s]; [discriminate|].
  cbn [starts_with] in Hs. rewrite andb_true_r in Hs. apply N.eqb_eq in Hs. subst b.
  change (skip_ws (65279%N :: s)) with (65279%N :: s).
  now rewrite scan_once_bom.
Qed.

Lemma replace_scan_leading_ws (old new ws s : str) :
  (exists c p, old = c :: p /\ is_ws c = false) ->
  forallb is_ws ws = true ->
  replace_scan old new 0 (ws ++ s) = ws ++ replace_scan old new 0 s.
Proof.
  intros (c & p & -> & Hc). induction ws as [|b ws IH]; [reflexivity|].
  cbn [forallb]. intros H. apply andb_prop in H as [Hb Hws].
  change ((b :: ws) ++ s) with (b :: (ws ++ s)).
  rewrite replace_scan_miss.
  - cbn [app]. f_equal. now apply IH.
  - cbn [starts_with].
    destruct (N.eqb_spec c b) as [->|]; [congruence | reflexivity].
Qed.

Lemma strip_xssi_leading_ws (ws s : str) :
  forallb is_ws ws = true -> strip_xssi (ws ++ s) = ws ++ strip_xssi s.
Proof.
  apply replace_scan_leading_ws. exists 41%N, (u "]}'"). split; reflexivity.
Qed.

Lemma strip_xssi_leading_prefix (s : str) :
  strip_xssi (XSSI_PREFIX ++ s) = strip_xssi s.
Proof.
  unfold strip_xssi, str_replace.
  change (replace_scan XSSI_PREFIX [] 0 (XSSI_PREFIX ++ s) =
          [] ++ replace_scan XSSI_PREFIX [] 0 s).
  apply replace_scan_hit. discriminate.
Qed.

(** X5.  The prefix and the white space before the JSON text are both
    optional: a body with the prefix, with white space (blanks, tabs,
    line feeds, carriage returns) in front of the JSON text, or with
    both, gives what the body without them gives. *)
Theorem prefix_and_blanks_are_optional (ws rest : str) :
  forallb is_ws ws = true ->
  article_url_of (XSSI_PREFIX ++ ws ++ rest) = article_url_of rest /\
  article_url_of (ws ++ rest) = article_url_of rest /\
  article_url_of (XSSI_PREFIX ++ rest) = article_url_of rest.
Proof.
  intros Hws. rewrite !article_url_of_spec.
  rewrite !strip_xssi_leading_prefix, strip_xssi_leading_ws by assumption.
  unfold article_url_spec. rewrite json_loads_leading_ws by assumption.
  repeat split.
Qed.

End ResponseShape.

Section Block.
Variable A : Type.

(** X4.  The transform takes one block out of the sequence and keeps
    the rest in order: the sequence is [a ++ mid ++ b], the result is
    [a ++ b], [b] holds the last [min 2 (len obj)] elements, and [mid]
    has four elements from six elements on, and everything before [b]
    below. *)
Theorem reshape_removes_a_block (obj : list A) :
  exists a mid b,
    obj = a ++ mid ++ b /\
    reshape obj = a ++ b /\
    length b = Nat.min 2 (length obj) /\
    length mid = (if 6 <=? length obj then 4 else length obj - Nat.min 2 (length obj)).
Proof.
  rewrite reshape_firstn_skipn.
  destruct (Nat.leb_spec 6 (length obj)) as [H|H].
  - exists (firstn (length obj - 6) obj),
           (firstn 4 (skipn (length obj - 6) obj)),
           (skipn (length obj - 2) obj).
    repeat split.
    + rewrite <- (firstn_skipn (length obj - 6) obj) at 1. f_equal.
      rewrite <- (firstn_skipn 4 (skipn (length obj - 6) obj)) at 1. f_equal.
      rewrite skipn_skipn. f_equal. lia.
    + rewrite length_skipn. lia.
    + rewrite length_firstn, length_skipn. lia.
  - exists [], (firstn (length obj - Nat.min 2 (length obj)) obj),
           (skipn (length obj - 2) obj).
    repeat split.
    + cbn [app]. rewrite <- (firstn_skipn (length obj - Nat.min 2 (length obj)) obj) at 1.
      f_equal. f_equal. lia.
    + replace (length obj - 6) with 0 by lia. reflexivity.
    + rewrite length_skipn. lia.
    + rewrite length_firstn. lia.
Qed.
End Block.

(** ** Escapes and their reading *)

Section HexDigits.

Lemma hex_value_digit (d : N) : (d < 16)%N -> hex_value (hex_digit d) = Some d.
Proof.
  intros H.
  assert (Hd : In d (map N.of_nat (seq 0 16))).
  { apply in_map_iff. exists (N.to_nat d). split; [apply N2Nat.id|].
    apply in_seq. lia. }
  cbn in Hd. repeat (destruct Hd as [<-|Hd]; [reflexivity|]). destruct Hd.
Qed.

Lemma decode_u_escape (n : N) :
  (n < 65536)%N ->
  decode_uXXXX (hex_digit ((n / 4096) mod 16)) (hex_digit ((n / 256) mod 16))
               (hex_digit ((n / 16) mod 16)) (hex_digit (n mod 16)) = Some n.
Proof.
  intros Hn. unfold decode_uXXXX.
  rewrite !hex_value_digit by (apply N.mod_lt; discriminate).
  f_equal.
  pose proof (N.div_mod n 16 ltac:(discriminate)) as H0.
  pose proof (N.div_mod (n / 16) 16 ltac:(discriminate)) as H1.
  pose proof (N.div_mod (n / 256) 16 ltac:(discriminate)) as H2.
  assert (E1 : (n / 16 / 16 = n / 256)%N) by (rewrite N.Div0.div_div; reflexivity).
  assert (E2 : (n / 256 / 16 = n / 4096)%N) by (rewrite N.Div0.div_div; reflexivity).
  assert (E3 : (n / 4096 < 16)%N) by (apply N.Div0.div_lt_upper_bound; lia).
  rewrite (N.mod_small (n / 4096) 16) by assumption.
  rewrite E1 in H1. rewrite E2 in H2. lia.
Qed.

End HexDigits.

Section Surrogates.

Lemma lor_above_10_bits (k b : N) :
  (b < 1024)%N -> N.lor (k * 1024) b = (k * 1024 + b)%N.
Proof.
  intros Hb.
  assert (Hland : N.land (k * 1024) b = 0%N).
  { apply N.bits_inj. intros m. rewrite N.land_spec, N.bits_0.
    destruct (N.lt_ge_cases m 10) as [Hm|Hm].
    - change 1024%N with (2 ^ 10)%N. now rewrite N.mul_pow2_bits_low.
    - rewrite <- (N.mod_small b (2 ^ 10)) by exact Hb.
      rewrite N.mod_pow2_bits_high by assumption. apply andb_false_r. }
  now rewrite <- N.lxor_lor, <- N.add_nocarry_lxor.
Qed.

Lemma surrogate_pair (c : char) :
  (65536 <= c)%N -> (c <= 1114111)%N ->
  let n := (c - 65536)%N in
  let hi := N.lor 55296 (N.land (N.shiftr n 10) 1023) in
  let lo := N.lor 56320 (N.land n 1023) in
  (hi < 65536)%N /\ (lo < 65536)%N /\
  is_high_surrogate hi = true /\ is_low_surrogate lo = true /\
  join_surrogates hi lo = c.
Proof.
  intros Hlo Hhi n hi lo.
  assert (Hn : (n < 1048576)%N) by (subst n; lia).
  assert (Ha : (n / 1024 < 1024)%N) by (apply N.Div0.div_lt_upper_bound; lia).
  assert (Hb : (n mod 1024 < 1024)%N) by (apply N.mod_lt; discriminate).
  assert (Ehi : hi = (55296 + n / 1024)%N).
  { subst hi. change 1023%N with (N.ones 10).
    rewrite N.land_ones, N.shiftr_div_pow2. change (2 ^ 10)%N with 1024%N.
    rewrite (N.mod_small (n / 1024) 1024) by assumption.
    change 55296%N with (54 * 1024)%N. now apply lor_above_10_bits. }
  assert (Elo : lo = (56320 + n mod 1024)%N).
  { subst lo. change 1023%N with (N.ones 10).
    rewrite N.land_ones. change (2 ^ 10)%N with 1024%N.
    change 56320%N with (55 * 1024)%N. now apply lor_above_10_bits. }
  pose proof (N.div_mod n 1024 ltac:(discriminate)) as Hdm.
  assert (En : (n + 65536 = c)%N) by (subst n; lia).
  clearbody hi lo n.
  revert Ha Hb Ehi Elo Hdm.
  generalize (n / 1024)%N as a, (n mod 1024)%N as b. intros a b Ha Hb Ehi Elo Hdm.
  repeat split.
  - lia.
  - lia.
  - unfold is_high_surrogate. apply andb_true_intro. split; apply N.leb_le; lia.
  - unfold is_low_surrogate. apply andb_true_intro. split; apply N.leb_le; lia.
  - unfold join_surrogates. rewrite Ehi, Elo.
    replace (55296 + a - 55296)%N with a by lia.
    replace (56320 + b - 56320)%N with b by lia.
    rewrite N.shiftl_mul_pow2. change (2 ^ 10)%N with 1024%N.
    rewrite lor_above_10_bits by assumption. lia.
Qed.

End Surrogates.

Section Strings.

Lemma scanstring_plain (c : char) (T : str) :
  (c =? 34)%N = false -> (c =? 92)%N = false -> (c <? 32)%N = false ->
  scanstring (c :: T) = push c (scanstring T).
Proof. intros H1 H2 H3. cbn [scanstring]. now rewrite H1, H2, H3. Qed.

Lemma scanstring_short (esc ch : char) (T : str) :
  (esc =? 117)%N = false -> unescape esc = Some ch ->
  scanstring (92%N :: esc :: T) = push ch (scanstring T).
Proof.
  intros H1 H2. cbn [scanstring].
  change (92 =? 34)%N with false. change (92 =? 92)%N with true.
  cbv beta iota. now rewrite H1, H2.
Qed.

Lemma scanstring_u (h1 h2 h3 h4 uni : char) (T : str) :
  decode_uXXXX h1 h2 h3 h4 = Some uni ->
  is_high_surrogate uni = false ->
  scanstring (92%N :: 117%N :: h1 :: h2 :: h3 :: h4 :: T) = push uni (scanstring T).
Proof.
  intros H1 H2. cbn [scanstring].
  change (92 =? 34)%N with false. change (92 =? 92)%N with true.
  change (117 =? 117)%N with true.
  cbv beta iota. now rewrite H1, H2.
Qed.

Lemma scanstring_u_lone (h1 h2 h3 h4 uni : char) (T : str) :
  decode_uXXXX h1 h2 h3 h4 = Some uni ->
  no_low_ahead T ->
  scanstring (92%N :: 117%N :: h1 :: h2 :: h3 :: h4 :: T) = push uni (scanstring T).
Proof.
  intros H1 Hno. cbn [scanstring].
  change (92 =? 34)%N with false. change (92 =? 92)%N with true.
  change (117 =? 117)%N with true.
  cbv beta iota. rewrite H1.
  destruct (is_high_surrogate uni); [|reflexivity].
  destruct T as [|b [|m [|g1 [|g2 [|g3 [|g4 s4]]]]]]; try reflexivity.
  destruct ((b =? 92) && (m =? 117))%N eqn:Hbm; [|reflexivity].
  apply andb_prop in Hbm as [Hb Hm].
  apply N.eqb_eq in Hb, Hm. subst b m.
  destruct (Hno g1 g2 g3 g4 s4 eq_refl) as (uni2 & -> & ->). reflexivity.
Qed.

Lemma scanstring_u_pair (h1 h2 h3 h4 g1 g2 g3 g4 hi lo : char) (T : str) :
  decode_uXXXX h1 h2 h3 h4 = Some hi -> is_high_surrogate hi = true ->
  decode_uXXXX g1 g2 g3 g4 = Some lo -> is_low_surrogate lo = true ->
  scanstring (92%N :: 117%N :: h1 :: h2 :: h3 :: h4 ::
              92%N :: 117%N :: g1 :: g2 :: g3 :: g4 :: T) =
  push (join_surrogates hi lo) (scanstring T).
Proof.
  intros H1 H2 H3 H4. cbn [scanstring].
  change (92 =? 34)%N with false. change (92 =? 92)%N with true.
  change (117 =? 117)%N with true.
  cbv beta iota. rewrite H1, H2.
  change ((92 =? 92)%N && (117 =? 117)%N) with true. cbv beta iota.
  now rewrite H3, H4.
Qed.

Lemma high_not_low (n : N) : is_high_surrogate n = true -> is_low_surrogate n = false.
Proof.
  unfold is_high_surrogate, is_low_surrogate. intros H.
  apply andb_prop in H as [_ H]. apply N.leb_le in H.
  apply andb_false_intro1. apply N.leb_gt. lia.
Qed.

Ltac eqb_case c k :=
  let E := fresh "E" in
  destruct (N.eqb_spec c k) as [E|E]; [subst c|].

(** One escaped character is read back as that character. *)
Lemma scan_escaped_char (c : char) (T : str) :
  (c <= 1114111)%N ->
  (is_high_surrogate c = true -> no_low_ahead T) ->
  scanstring (escape_char c ++ T) = push c (scanstring T).
Proof.
  intros Hc Hno. unfold escape_char.
  eqb_case c 34%N; [now apply scanstring_short|].
  eqb_case c 92%N; [now apply scanstring_short|].
  eqb_case c 10%N; [now apply scanstring_short|].
  eqb_case c 13%N; [now apply scanstring_short|].
  eqb_case c 9%N; [now apply scanstring_short|].
  eqb_case c 8%N; [now apply scanstring_short|].
  eqb_case c 12%N; [now apply scanstring_short|].
  destruct ((32 <=? c) && (c <=? 126))%N eqn:Hp.
  { apply andb_prop in Hp as [Hp _]. apply N.leb_le in Hp.
    cbn [app]. apply scanstring_plain.
    - now apply N.eqb_neq.
    - now apply N.eqb_neq.
    - apply N.ltb_ge. exact Hp. }
  destruct (N.ltb_spec c 65536) as [Hs|Hs].
  - unfold u_escape. cbn [app].
    destruct (is_high_surrogate c) eqn:Hh.
    + apply scanstring_u_lone; [now apply decode_u_escape | now apply Hno].
    + apply scanstring_u; [now apply decode_u_escape | assumption].
  - destruct (@surrogate_pair c Hs Hc) as (Hhi & Hlo & Hh & Hl & Hj).
    cbv zeta in Hhi, Hlo, Hh, Hl, Hj. cbv zeta.
    set (hi := N.lor 55296 (N.land (N.shiftr (c - 65536) 10) 1023)) in *.
    set (lo := N.lor 56320 (N.land (c - 65536) 1023)) in *.
    clearbody hi lo. rewrite <- Hj.
    unfold u_escape. cbn [app].
    apply scanstring_u_pair; try assumption; now apply decode_u_escape.
Qed.

Lemma cons_eq_inv (A : Type) (a b : A) (l l' : list A) :
  a :: l = b :: l' -> a = b /\ l = l'.
Proof. intros H. injection H as -> ->. split; reflexivity. Qed.

Lemma escaped_no_low_ahead (s : str) (X : str) :
  match s with
  | d :: _ => is_low_surrogate d = false /\ (d <= 1114111)%N
  | [] => True
  end ->
  no_low_ahead (flat_map escape_char s ++ DQ :: X).
Proof.
  destruct s as [|d s]; intros H g1 g2 g3 g4 s4 Heq; [discriminate|].
  destruct H as [Hlow Hd]. cbn [flat_map] in Heq. rewrite <- app_assoc in Heq.
  revert Heq. unfold escape_char.
  eqb_case d 34%N; [discriminate|].
  eqb_case d 92%N; [discriminate|].
  eqb_case d 10%N; [discriminate|].
  eqb_case d 13%N; [discriminate|].
  eqb_case d 9%N; [discriminate|].
  eqb_case d 8%N; [discriminate|].
  eqb_case d 12%N; [discriminate|].
  destruct ((32 <=? d) && (d <=? 126))%N.
  { cbn [app]. intros Heq. apply cons_eq_inv in Heq as [-> _]. congruence. }
  destruct (N.ltb_spec d 65536) as [Hs|Hs].
  - unfold u_escape. cbn [app]. intros Heq.
    do 2 apply cons_eq_inv in Heq as [_ Heq].
    apply cons_eq_inv in Heq as [<- Heq]. apply cons_eq_inv in Heq as [<- Heq].
    apply cons_eq_inv in Heq as [<- Heq]. apply cons_eq_inv in Heq as [<- _].
    exists d. split; [now apply decode_u_escape | assumption].
  - destruct (@surrogate_pair d Hs Hd) as (Hhi & _ & Hh & _).
    cbv zeta in Hhi, Hh. unfold u_escape. cbn [app].
    set (hi := N.lor 55296 (N.land (N.shiftr (d - 65536) 10) 1023)) in *.
    clearbody hi. intros Heq.
    do 2 apply cons_eq_inv in Heq as [_ Heq].
    apply cons_eq_inv in Heq as [<- Heq]. apply cons_eq_inv in Heq as [<- Heq].
    apply cons_eq_inv in Heq as [<- Heq]. apply cons_eq_inv in Heq as [<- _].
    exists hi. split; [now apply decode_u_escape | now apply high_not_low].
Qed.

(** An escaped text is read back as the text. *)
Lemma scanstring_escaped (s rest : str) :
  well_formed s = true ->
  scanstring (flat_map escape_char s ++ DQ :: rest) = Some (s, rest).
Proof.
  induction s as [|c s IH]; intros Hwf.
  - reflexivity.
  - cbn [well_formed] in Hwf.
    apply andb_prop in Hwf as [Hwf Hs]. apply andb_prop in Hwf as [Hc Hpair].
    apply N.leb_le in Hc.
    cbn [flat_map]. rewrite <- app_assoc.
    rewrite scan_escaped_char, (IH Hs); [reflexivity | assumption |].
    intros Hh. apply escaped_no_low_ahead.
    rewrite Hh in Hpair. cbn [andb] in Hpair.
    destruct s as [|d s']; [exact I|].
    apply negb_true_iff in Hpair. split; [assumption|].
    cbn [well_formed] in Hs. apply andb_prop in Hs as [Hs _].
    apply andb_prop in Hs as [Hs _]. now apply N.leb_le.
Qed.

Lemma loads_dumps_string_text (s rest : str) :
  well_formed s = true ->
  scanstring (tl (encode_basestring_ascii s) ++ rest) = Some (s, rest).
Proof.
  intros H. unfold encode_basestring_ascii. cbn [tl].
  rewrite <- app_assoc. now apply scanstring_escaped.
Qed.

End Strings.

(** ** The text of an integer *)

Section Integers.
Context {FM : FloatModel}.

Lemma u_string_of_uint (d : Decimal.uint) :
  u (NilEmpty.string_of_uint d) = uint_codes d.
Proof.
  unfold u. induction d; cbn [NilEmpty.string_of_uint list_ascii_of_string map uint_codes];
    [reflexivity | f_equal; assumption ..].
Qed.

Lemma int_repr_cases (z : Z) :
  int_repr z =
  match z with
  | Z0 => [48%N]
  | Zpos p => uint_codes (Pos.to_uint p)
  | Zneg p => 45%N :: uint_codes (Pos.to_uint p)
  end.
Proof.
  unfold int_repr. destruct z; cbn [Z.to_int NilEmpty.string_of_int].
  - reflexivity.
  - apply u_string_of_uint.
  - change (u (String "-" (NilEmpty.string_of_uint (Pos.to_uint p))))
      with (45%N :: u (NilEmpty.string_of_uint (Pos.to_uint p))).
    f_equal. apply u_string_of_uint.
Qed.

Lemma uint_codes_digits (d : Decimal.uint) : forallb is_digit (uint_codes d) = true.
Proof. induction d; cbn; auto. Qed.

Lemma span_digits_all (ds rest : str) :
  forallb is_digit ds = true -> stops rest = true ->
  span_digits (ds ++ rest) = (ds, rest).
Proof.
  intros Hds Hrest. induction ds as [|c ds IH].
  - destruct rest as [|c rest]; [reflexivity|].
    cbn [app span_digits]. unfold stops in Hrest.
    apply negb_true_iff in Hrest.
    apply orb_false_elim in Hrest as [Hrest _].
    apply orb_false_elim in Hrest as [Hrest _].
    apply orb_false_elim in Hrest as [Hrest _].
    now rewrite Hrest.
  - cbn [forallb] in Hds. apply andb_prop in Hds as [Hc Hds].
    cbn [app span_digits]. now rewrite Hc, (IH Hds).
Qed.

Let step (acc : Z) (c : char) : Z := (acc * 10 + (Z.of_N c - 48))%Z.

Lemma fold_of_uint_acc (d : Decimal.uint) (acc : positive) :
  fold_left step (uint_codes d) (Zpos acc) = Zpos (Pos.of_uint_acc d acc).
Proof.
  revert acc. induction d; intros acc; cbn [uint_codes fold_left Pos.of_uint_acc];
    [reflexivity | ..];
    match goal with
    | |- fold_left step _ ?a = Zpos (Pos.of_uint_acc _ ?b) =>
        replace a with (Zpos b) by (unfold step; lia)
    end; apply IHd.
Qed.

Lemma fold_of_uint (d : Decimal.uint) :
  fold_left step (uint_codes d) 0%Z = Z.of_N (Pos.of_uint d).
Proof.
  induction d; cbn [uint_codes fold_left Pos.of_uint]; [reflexivity | exact IHd | ..];
    match goal with
    | |- fold_left step _ ?a = _ =>
        let v := eval vm_compute in a in change a with v
    end; apply fold_of_uint_acc.
Qed.

Lemma digits_value_to_uint (p : positive) :
  digits_value (uint_codes (Pos.to_uint p)) = Zpos p.
Proof.
  unfold digits_value. change (fun acc c => (acc * 10 + (Z.of_N c - 48))%Z) with step.
  now rewrite fold_of_uint, Unsigned.of_to.
Qed.

Lemma to_uint_head (p : positive) :
  exists c ds,
    uint_codes (Pos.to_uint p) = c :: ds /\
    is_digit c = true /\ (c =? 48)%N = false /\ (c =? 45)%N = false.
Proof.
  pose proof (Unsigned.to_of (Pos.to_uint p)) as Hnorm.
  rewrite Unsigned.of_to in Hnorm. cbn [N.to_uint] in Hnorm.
  pose proof (Unsigned.to_uint_nonzero p) as Hnz.
  destruct (Pos.to_uint p) as [|d|d|d|d|d|d|d|d|d|d] eqn:E;
    try (eexists _, _; split; [reflexivity | repeat split]).
  - now destruct (Unsigned.to_uint_nonnil p).
  - exfalso. rewrite unorm_D0 in Hnorm.
    assert (Hd : d <> Decimal.Nil) by (intros ->; now apply Hnz).
    pose proof (nb_digits_unorm d Hd) as Hlen.
    rewrite <- Hnorm in Hlen. cbn [Decimal.nb_digits] in Hlen. lia.
Qed.


Lemma stops_cases (rest : str) :
  stops rest = true ->
  match rest with
  | [] => True
  | c :: _ => is_digit c = false /\ (c =? 46)%N = false /\
              (c =? 101)%N = false /\ (c =? 69)%N = false
  end.
Proof.
  destruct rest as [|c rest]; [trivial|]. unfold stops. intros H.
  apply negb_true_iff in H.
  apply orb_false_elim in H as [H H4].
  apply orb_false_elim in H as [H H3].
  apply orb_false_elim in H as [H1 H2]. auto.
Qed.

Lemma match_frac_stops (rest : str) : stops rest = true -> match_frac rest = ([], rest).
Proof.
  intros H. apply stops_cases in H. destruct rest as [|c rest]; [reflexivity|].
  destruct H as (_ & H & _). unfold match_frac. now rewrite H.
Qed.

Lemma match_exp_stops (rest : str) : stops rest = true -> match_exp rest = ([], rest).
Proof.
  intros H. apply stops_cases in H. destruct rest as [|c rest]; [reflexivity|].
  destruct H as (_ & _ & H1 & H2). unfold match_exp. now rewrite H1, H2.
Qed.

(** The text of an integer, followed by what cannot go on a number, is
    read back as that integer. *)
Lemma match_number_int (z : Z) (rest : str) :
  stops rest = true ->
  match_number (int_repr z ++ rest) = Some (VInt z, rest).
Proof.
  intros Hrest. rewrite int_repr_cases. unfold match_number.
  destruct z as [|p|p].
  - cbn [app]. change (match_integer (48%N :: rest)) with (Some ([48%N], rest)).
    cbv beta iota. now rewrite match_frac_stops, match_exp_stops.
  - destruct (to_uint_head p) as (c & ds & E & Hd & H0 & Hm).
    pose proof (uint_codes_digits (Pos.to_uint p)) as Hall.
    pose proof (digits_value_to_uint p) as Hval.
    rewrite E in *. cbn [forallb] in Hall. apply andb_prop in Hall as [_ Hall].
    cbn [app]. unfold match_integer. rewrite Hm, H0, Hd.
    rewrite (span_digits_all ds rest Hall Hrest). cbn [app].
    rewrite match_frac_stops, match_exp_stops by assumption.
    unfold parse_int. now rewrite Hm, Hval.
  - destruct (to_uint_head p) as (c & ds & E & Hd & H0 & Hm).
    pose proof (uint_codes_digits (Pos.to_uint p)) as Hall.
    pose proof (digits_value_to_uint p) as Hval.
    rewrite E in *. cbn [forallb] in Hall. apply andb_prop in Hall as [_ Hall].
    cbn [app]. unfold match_integer. change (45 =? 45)%N with true. cbv beta iota.
    rewrite H0, Hd.
    rewrite (span_digits_all ds rest Hall Hrest). cbn [app].
    rewrite match_frac_stops, match_exp_stops by assumption.
    unfold parse_int. change (45 =? 45)%N with true. cbv beta iota.
    now rewrite Hval.
Qed.

(** Where a text starts with a digit or a minus sign, [scan_once] goes
    straight to the number. *)
Lemma scan_once_number (d : nat) (c : char) (s : str) r :
  is_digit c = true \/ c = 45%N ->
  match_number (c :: s) = Some r ->
  scan_once (S d) (c :: s) = Some r.
Proof.
  intros Hc Hn. cbn [scan_once].
  assert (Hrange : (c = 45 \/ 48 <= c <= 57)%N).
  { destruct Hc as [Hc| ->]; [|now left]. right.
    unfold is_digit in Hc. apply andb_prop in Hc as [H1 H2].
    apply N.leb_le in H1, H2. lia. }
  replace (c =? 34)%N with false by (symmetry; apply N.eqb_neq; lia).
  replace (c =? 123)%N with false by (symmetry; apply N.eqb_neq; lia).
  replace (c =? 91)%N with false by (symmetry; apply N.eqb_neq; lia).
  cbn [u map list_ascii_of_string starts_with].
  change (N_of_ascii "n") with 110%N. change (N_of_ascii "t") with 116%N.
  change (N_of_ascii "f") with 102%N.
  replace (110 =? c)%N with false by (symmetry; apply N.eqb_neq; lia).
  replace (116 =? c)%N with false by (symmetry; apply N.eqb_neq; lia).
  replace (102 =? c)%N with false by (symmetry; apply N.eqb_neq; lia).
  cbn [andb]. now rewrite Hn.
Qed.

Lemma int_repr_head (z : Z) :
  exists c t, int_repr z = c :: t /\ (is_digit c = true \/ c = 45%N).
Proof.
  rewrite int_repr_cases. destruct z as [|p|p].
  - exists 48%N, []. split; [reflexivity | now left].
  - destruct (to_uint_head p) as (c & ds & E & Hd & _). eauto.
  - eexists _, _. split; [reflexivity | now right].
Qed.

Lemma scan_once_int (d : nat) (z : Z) (rest : str) :
  stops rest = true ->
  scan_once (S d) (int_repr z ++ rest) = Some (VInt z, rest).
Proof.
  intros Hrest. pose proof (match_number_int z rest Hrest) as Hn.
  destruct (int_repr_head z) as (c & t & E & Hc).
  rewrite E in *. cbn [app] in *. now apply scan_once_number.
Qed.

End Integers.

(** ** Decoding what was encoded *)

Section RoundTrip.
Context {FM : FloatModel}.


Lemma head_ok_facts (c : char) :
  head_ok c = true ->
  is_ws c = false /\ (c =? 93)%N = false /\ (65279 =? c)%N = false.
Proof.
  unfold head_ok, is_digit, is_ws. intros H.
  assert (Hc : (48 <= c <= 57 \/ c = 45 \/ c = 110 \/ c = 116 \/ c = 102 \/
                c = 34 \/ c = 91 \/ c = 123)%N).
  { repeat (apply orb_prop in H as [H|H]);
      try (apply N.eqb_eq in H; lia).
    apply andb_prop in H as [H1 H2]. apply N.leb_le in H1, H2. lia. }
  repeat split.
  - repeat (apply orb_false_intro); apply N.eqb_neq; lia.
  - apply N.eqb_neq; lia.
  - apply N.eqb_neq; lia.
Qed.

Lemma json_dumps_head (v : value) :
  plain v = true -> exists c t, json_dumps v = c :: t /\ head_ok c = true.
Proof.
  destruct v as [|[|]|z|f|s|items|pairs]; cbn [plain]; intros H;
    try (eexists _, _; split; [reflexivity | reflexivity]).
  - destruct (int_repr_head z) as (c & t & E & Hc). exists c, t.
    split; [exact E|]. unfold head_ok.
    destruct Hc as [Hc| ->]; [now rewrite Hc | reflexivity].
  - discriminate.
Qed.

Lemma skip_ws_head (c : char) (s : str) : is_ws c = false -> skip_ws (c :: s) = c :: s.
Proof. intros H. cbn [skip_ws]. now rewrite H. Qed.

Lemma join_cons2 (sep x y : str) (l : list str) :
  join sep (x :: y :: l) = x ++ sep ++ join sep (y :: l).
Proof. reflexivity. Qed.

Lemma array_loop_items (d : nat) (items : list value) :
  items <> [] ->
  Forall reads_back items ->
  forallb plain items = true ->
  forall n rest,
    length (join (u ", ") (map json_dumps items) ++ 93%N :: rest) < d ->
    length (join (u ", ") (map json_dumps items) ++ 93%N :: rest) < n ->
    array_loop (scan_once d) n (join (u ", ") (map json_dumps items) ++ 93%N :: rest)
    = Some (items, rest).
Proof.
  induction items as [|x items IH]; [easy|].
  intros _ HF Hplain n rest Hd Hn.
  inversion HF as [|? ? Hx HF']; subst.
  cbn [forallb] in Hplain. apply andb_prop in Hplain as [Hpx Hplain].
  destruct n as [|n]; [lia|].
  destruct items as [|y items].
  - cbn [map join] in *. cbn [array_loop].
    rewrite Hx; [| reflexivity | exact Hd].
    rewrite skip_ws_head by reflexivity.
    change (93 =? 93)%N with true. reflexivity.
  - cbn [map] in *. rewrite join_cons2 in *.
    change (u ", ") with [44%N; 32%N] in *.
    rewrite <- !app_assoc in *. cbn [app] in *.
    cbn [array_loop].
    rewrite Hx; [| reflexivity | exact Hd].
    rewrite skip_ws_head by reflexivity.
    change (44 =? 93)%N with false. change (44 =? 44)%N with true.
    cbv beta iota.
    assert (Hy : plain y = true) by (cbn [forallb] in Hplain; now apply andb_prop in Hplain).
    destruct (json_dumps_head y Hy) as (c & t & E & Hc).
    apply head_ok_facts in Hc as (Hws & _).
    match goal with
    | |- context [skip_ws ?X] => assert (Hskip : skip_ws X = tl X)
    end.
    { cbn [skip_ws tl]. change (is_ws 32%N) with true. cbv beta iota.
      destruct items; cbn [map join]; rewrite E; try rewrite <- !app_assoc;
        cbn [app]; now apply skip_ws_head. }
    rewrite Hskip. cbn [tl].
    rewrite length_app in Hd, Hn. cbn [length] in Hd, Hn.
    rewrite (IH ltac:(discriminate) HF' Hplain n rest); [reflexivity | lia | lia].
Qed.

Let pair_text (kv : str * value) : str :=
  let (k, x) := kv in encode_basestring_ascii k ++ u ": " ++ json_dumps x.

Lemma object_text_last (k : str) (x : value) (rest : str) :
  join (u ", ") (map pair_text [(k, x)]) ++ 125%N :: rest =
  34%N :: (flat_map escape_char k ++
           34%N :: 58%N :: 32%N :: (json_dumps x ++ 125%N :: rest)).
Proof.
  cbn [map join pair_text]. unfold encode_basestring_ascii.
  change (u ": ") with [58%N; 32%N]. change DQ with 34%N.
  cbn [app]. f_equal. rewrite <- !app_assoc. reflexivity.
Qed.

Lemma object_text_more (k : str) (x : value) kv (ps : list (str * value)) (rest : str) :
  join (u ", ") (map pair_text ((k, x) :: kv :: ps)) ++ 125%N :: rest =
  34%N :: (flat_map escape_char k ++
           34%N :: 58%N :: 32%N ::
           (json_dumps x ++
            44%N :: 32%N :: (join (u ", ") (map pair_text (kv :: ps)) ++ 125%N :: rest))).
Proof.
  cbn [map]. rewrite join_cons2. cbn [pair_text]. unfold encode_basestring_ascii.
  change (u ": ") with [58%N; 32%N]. change (u ", ") with [44%N; 32%N].
  change DQ with 34%N.
  cbn [app]. f_equal. rewrite <- !app_assoc. reflexivity.
Qed.

Lemma object_text_head kv (ps : list (str * value)) (rest : str) :
  exists t, join (u ", ") (map pair_text (kv :: ps)) ++ 125%N :: rest = 34%N :: t.
Proof.
  destruct kv as [k x]. destruct ps as [|kv' ps].
  - rewrite object_text_last. eauto.
  - rewrite object_text_more. eauto.
Qed.

Lemma skip_ws_blank_head (c : char) (t : str) :
  is_ws c = false -> skip_ws (32%N :: c :: t) = c :: t.
Proof. intros H. cbn [skip_ws]. change (is_ws 32%N) with true. cbv beta iota. now rewrite H. Qed.

Ltac len :=
  repeat match goal with
         | H : context [length (_ ++ _)] |- _ => rewrite length_app in H
         | |- context [length (_ ++ _)] => rewrite length_app
         | _ => progress cbn [length] in *
         end;
  lia.

Lemma object_loop_pairs (d : nat) (pairs : list (str * value)) :
  pairs <> [] ->
  Forall (fun kv => reads_back (snd kv)) pairs ->
  forallb (fun kv : str * value => let (k, x) := kv in well_formed k && plain x)
          pairs = true ->
  forall n rest,
    length (join (u ", ") (map pair_text pairs) ++ 125%N :: rest) < d ->
    length (join (u ", ") (map pair_text pairs) ++ 125%N :: rest) < n ->
    object_loop (scan_once d) n
      (tl (join (u ", ") (map pair_text pairs) ++ 125%N :: rest))
    = Some (pairs, rest).
Proof.
  induction pairs as [|[k x] pairs IH]; [easy|].
  intros _ HF Hplain n rest Hd Hn.
  inversion HF as [|? ? Hx HF']; subst. cbn [snd] in Hx.
  cbn [forallb] in Hplain. apply andb_prop in Hplain as [Hkx Hplain].
  apply andb_prop in Hkx as [Hk Hpx].
  destruct (json_dumps_head x Hpx) as (c & t & E & Hc).
  apply head_ok_facts in Hc as (Hws & _).
  destruct n as [|n]; [lia|].
  destruct pairs as [|kv pairs].
  - rewrite object_text_last in *. cbn [tl].
    cbn [object_loop]. rewrite scanstring_escaped by assumption.
    rewrite skip_ws_head by reflexivity.
    change (58 =? 58)%N with true. cbv beta iota.
    rewrite E. cbn [app]. rewrite skip_ws_blank_head by assumption.
    change (c :: t ++ 125%N :: rest) with ((c :: t) ++ 125%N :: rest).
    rewrite <- E.
    rewrite Hx; [| reflexivity |].
    + rewrite skip_ws_head by reflexivity.
      change (125 =? 125)%N with true. reflexivity.
    + clear - Hd. len.
  - rewrite object_text_more in *. cbn [tl].
    cbn [object_loop]. rewrite scanstring_escaped by assumption.
    rewrite skip_ws_head by reflexivity.
    change (58 =? 58)%N with true. cbv beta iota.
    rewrite E. cbn [app]. rewrite skip_ws_blank_head by assumption.
    match goal with
    | |- context [scan_once d (c :: t ++ ?tail)] =>
        change (c :: t ++ tail) with ((c :: t) ++ tail)
    end.
    rewrite <- E.
    assert (Hlen : length (join (u ", ") (map pair_text (kv :: pairs)) ++ 125%N :: rest) < d
                   /\ length (join (u ", ") (map pair_text (kv :: pairs)) ++ 125%N :: rest) < n).
    { clear - Hd Hn. split; len. }
    destruct Hlen as [Hd' Hn'].
    rewrite Hx; [| reflexivity |].
    + rewrite skip_ws_head by reflexivity.
      change (44 =? 125)%N with false. change (44 =? 44)%N with true.
      cbv beta iota.
      destruct (object_text_head kv pairs rest) as [t' Et].
      specialize (IH ltac:(discriminate) HF' Hplain n rest Hd' Hn').
      rewrite Et in *. cbn [tl] in IH.
      rewrite skip_ws_blank_head by reflexivity.
      change (34 =? 34)%N with true. cbv beta iota.
      now rewrite IH.
    + clear - Hd. len.
Qed.

Lemma distinct_not_in (l : list str) (k : str) (r : list str) :
  distinct (l ++ k :: r) = true -> ~ In k l.
Proof.
  induction l as [|a l IH]; [easy|].
  cbn [app distinct]. intros H. apply andb_prop in H as [Ha Hl].
  intros [->|Hin]; [|now apply IH].
  apply negb_true_iff in Ha.
  assert (Hex : existsb (fun k' => if str_eq_dec k k' then true else false)
                        (l ++ k :: r) = true).
  { apply existsb_exists. exists k. split; [apply in_elt|].
    destruct (str_eq_dec k k); congruence. }
  congruence.
Qed.

Lemma dict_set_fresh (k : str) (v : value) (dict : list (str * value)) :
  ~ In k (map fst dict) -> dict_set k v dict = dict ++ [(k, v)].
Proof.
  induction dict as [|[k' v'] dict IH]; [reflexivity|].
  cbn [map fst In dict_set app]. intros H.
  destruct (str_eq_dec k k') as [->|_]; [tauto|].
  f_equal. apply IH. tauto.
Qed.

Lemma dict_of_pairs_distinct (pairs : list (str * value)) :
  distinct (map fst pairs) = true -> dict_of_pairs pairs = pairs.
Proof.
  unfold dict_of_pairs.
  assert (H : forall acc,
             distinct (map fst acc ++ map fst pairs) = true ->
             fold_left (fun d kv => dict_set (fst kv) (snd kv) d) pairs acc = acc ++ pairs).
  { induction pairs as [|[k v] pairs IH]; intros acc Hd.
    - now rewrite app_nil_r.
    - cbn [fold_left fst snd map] in *.
      rewrite dict_set_fresh by (eapply distinct_not_in; eassumption).
      rewrite IH.
      + now rewrite <- app_assoc.
      + rewrite map_app, <- app_assoc. exact Hd. }
  intros Hd. now apply (H []).
Qed.

(** The text of a plain object is read back as the object. *)
Lemma plain_reads_back (v : value) : plain v = true -> reads_back v.
Proof.
  induction v as [| b | z | f | s | items IH | pairs IH] using value_ind_nested;
    intros Hplain rest d Hrest Hd.
  - destruct d as [|d]; [lia|]. reflexivity.
  - destruct d as [|d]; [lia|]. destruct b; reflexivity.
  - destruct d as [|d]; [lia|]. now apply scan_once_int.
  - discriminate.
  - destruct d as [|d]; [lia|]. cbn [plain] in Hplain.
    cbn [json_dumps]. unfold encode_basestring_ascii.
    change DQ with 34%N. cbn [app scan_once].
    change (34 =? 34)%N with true. cbv beta iota.
    rewrite <- app_assoc. cbn [app].
    now rewrite scanstring_escaped.
  - destruct d as [|d]; [lia|]. cbn [plain] in Hplain.
    assert (HF : Forall reads_back items).
    { rewrite Forall_forall in *. intros x Hx. apply IH; [assumption|].
      rewrite forallb_forall in Hplain. now apply Hplain. }
    cbn [json_dumps] in *. change (u "[") with [91%N] in *.
    change (u "]") with [93%N] in *.
    rewrite <- !app_assoc in *. cbn [app] in *. cbn [scan_once].
    change (91 =? 34)%N with false. change (91 =? 123)%N with false.
    change (91 =? 91)%N with true. cbv beta iota.
    unfold parse_array.
    destruct items as [|x items].
    + cbn [map join app]. rewrite skip_ws_head by reflexivity.
      change (93 =? 93)%N with true. reflexivity.
    + assert (Hpx : plain x = true)
        by (cbn [forallb] in Hplain; now apply andb_prop in Hplain).
      destruct (json_dumps_head x Hpx) as (c & t & E & Hc).
      apply head_ok_facts in Hc as (Hws & H93 & _).
      assert (Ehead : exists t', join (u ", ") (map json_dumps (x :: items)) ++ 93%N :: rest
                                 = c :: t').
      { destruct items; cbn [map join]; rewrite E; try rewrite <- !app_assoc;
          cbn [app]; eauto. }
      destruct Ehead as [t' Et].
      match goal with
      | |- context [skip_ws ?X] => set (text := X) in *
      end.
      assert (Et' : text = c :: t') by exact Et.
      assert (EX : skip_ws text = text) by (rewrite Et'; now apply skip_ws_head).
      assert (Hloop : array_loop (scan_once d) (S (length text)) text
                      = Some (x :: items, rest)).
      { apply (@array_loop_items d (x :: items) ltac:(discriminate) HF Hplain
                 (S (length text)) rest).
        - apply Nat.succ_lt_mono. exact Hd.
        - apply Nat.lt_succ_diag_r. }
      rewrite !EX, Hloop. rewrite Et'. now rewrite H93.
  - destruct d as [|d]; [lia|]. cbn [plain] in Hplain.
    apply andb_prop in Hplain as [Hdist Hplain].
    assert (HF : Forall (fun kv => reads_back (snd kv)) pairs).
    { rewrite Forall_forall in *. intros [k x] Hx. apply (IH _ Hx).
      rewrite forallb_forall in Hplain. specialize (Hplain _ Hx).
      cbn [snd]. now apply andb_prop in Hplain. }
    cbn [json_dumps] in *. change (u "{") with [123%N] in *.
    change (u "}") with [125%N] in *.
    rewrite <- !app_assoc in *. cbn [app] in *. cbn [scan_once].
    change (123 =? 34)%N with false. change (123 =? 123)%N with true.
    cbv beta iota. unfold parse_object.
    destruct pairs as [|kv pairs].
    + cbn [map join app]. rewrite skip_ws_head by reflexivity.
      change (125 =? 125)%N with true. reflexivity.
    + fold pair_text in Hd |- *.
      destruct (object_text_head kv pairs rest) as [t' Et].
      match goal with
      | |- context [skip_ws ?X] => set (text := X) in *
      end.
      assert (Et' : text = 34%N :: t') by exact Et.
      assert (EX : skip_ws text = text) by (rewrite Et'; now apply skip_ws_head).
      assert (Hloop : object_loop (scan_once d) (S (length text)) (tl text)
                      = Some (kv :: pairs, rest)).
      { apply (@object_loop_pairs d (kv :: pairs) ltac:(discriminate) HF Hplain
                 (S (length text)) rest).
        - apply Nat.succ_lt_mono. exact Hd.
        - apply Nat.lt_succ_diag_r. }
      rewrite !EX. rewrite Et' at 1. rewrite Et' in Hloop at 2. cbn [tl] in Hloop.
      change (34 =? 125)%N with false. change (34 =? 34)%N with true.
      cbv beta iota. rewrite Hloop.
      now rewrite dict_of_pairs_distinct.
Qed.

(** Decoding undoes encoding on the plain objects. *)
Lemma plain_round_trip (v : value) :
  plain v = true -> json_loads (json_dumps v) = Ok v.
Proof.
  intros Hplain. unfold json_loads.
  destruct (json_dumps_head v Hplain) as (c & t & E & Hc).
  apply head_ok_facts in Hc as (Hws & _ & Hbom).
  pose proof (@plain_reads_back v Hplain [] (S (length (json_dumps v))) eq_refl) as H.
  rewrite app_nil_r in H. specialize (H ltac:(lia)).
  rewrite E in *. cbn [starts_with]. rewrite Hbom. cbn [andb].
  rewrite skip_ws_head by assumption. now rewrite H.
Qed.

End RoundTrip.

(** ** What the decoder returns *)

Section Decoded.
Context {FM : FloatModel}.

Lemma distinct_snoc (l : list str) (k : str) :
  distinct l = true -> ~ In k l -> distinct (l ++ [k]) = true.
Proof.
  induction l as [|a l IH]; [reflexivity|].
  cbn [app distinct In]. intros H Hk. apply andb_prop in H as [Ha Hl].
  rewrite IH by tauto. rewrite andb_true_r.
  rewrite existsb_app. cbn [existsb].
  apply negb_true_iff in Ha. rewrite Ha.
  destruct (str_eq_dec a k) as [->|_]; [tauto | reflexivity].
Qed.

(** [dict_set] keeps the keys, or adds a new one at the end. *)
Lemma dict_set_keys (k : str) (v : value) (d : list (str * value)) :
  map fst (dict_set k v d) = map fst d \/
  (~ In k (map fst d) /\ map fst (dict_set k v d) = map fst d ++ [k]).
Proof.
  induction d as [|[k' v'] d IH]; cbn [dict_set map fst app In].
  - right. split; [tauto | reflexivity].
  - destruct (str_eq_dec k k') as [->|Hne]; [left; reflexivity|].
    cbn [map fst]. destruct IH as [IH | [Hk IH]]; rewrite IH.
    + left. reflexivity.
    + right. split; [|reflexivity]. intros [E|Hin]; [congruence | tauto].
Qed.

Lemma dict_set_distinct (k : str) (v : value) (d : list (str * value)) :
  distinct (map fst d) = true -> distinct (map fst (dict_set k v d)) = true.
Proof.
  intros Hd. destruct (dict_set_keys k v d) as [E | [Hk E]]; rewrite E.
  - exact Hd.
  - now apply distinct_snoc.
Qed.

Lemma dict_set_keyed (k : str) (v : value) (d : list (str * value)) :
  keyed v = true ->
  forallb (fun kv : str * value => keyed (snd kv)) d = true ->
  forallb (fun kv : str * value => keyed (snd kv)) (dict_set k v d) = true.
Proof.
  intros Hv. induction d as [|[k' v'] d IH]; cbn [dict_set forallb snd].
  - intros _. now rewrite Hv.
  - intros H. apply andb_prop in H as [Hv' Hd].
    destruct (str_eq_dec k k'); cbn [forallb snd].
    + now rewrite Hv, Hd.
    + now rewrite Hv', IH.
Qed.

(** A [dict] built from pairs has no key twice. *)
Lemma dict_of_pairs_keyed (pairs : list (str * value)) :
  forallb (fun kv : str * value => keyed (snd kv)) pairs = true ->
  keyed (VDict (dict_of_pairs pairs)) = true.
Proof.
  unfold dict_of_pairs. cbn [keyed].
  assert (H : forall acc,
             distinct (map fst acc) = true ->
             forallb (fun kv : str * value => keyed (snd kv)) acc = true ->
             forallb (fun kv : str * value => keyed (snd kv)) pairs = true ->
             let d := fold_left (fun d kv => dict_set (fst kv) (snd kv) d) pairs acc in
             distinct (map fst d) &&
             forallb (fun kv : str * value => keyed (snd kv)) d = true).
  { induction pairs as [|[k v] pairs IH]; intros acc Hd Ha Hp; cbn [fold_left fst snd].
    - now rewrite Hd, Ha.
    - cbn [forallb snd] in Hp. apply andb_prop in Hp as [Hv Hp].
      apply IH; [now apply dict_set_distinct | now apply dict_set_keyed | exact Hp]. }
  intros Hp. now apply (H []).
Qed.

Section Loops.
Variable scan : str -> option (value * str).
Hypothesis scan_keyed : forall s v r, scan s = Some (v, r) -> keyed v = true.

Lemma array_loop_keyed n s vs r :
  array_loop scan n s = Some (vs, r) -> forallb keyed vs = true.
Proof.
  revert s vs r. induction n as [|n IH]; intros s vs r H; [discriminate|].
  cbn [array_loop] in H.
  destruct (scan s) as [[v s1]|] eqn:Hv; [|discriminate].
  apply scan_keyed in Hv.
  destruct (skip_ws s1) as [|c s2]; [discriminate|].
  destruct (c =? 93)%N.
  { assert (vs = [v]) by congruence. subst vs. cbn [forallb]. now rewrite Hv. }
  destruct (c =? 44)%N; [|discriminate].
  destruct (array_loop scan n (skip_ws s2)) as [[vs' r']|] eqn:Hl; [|discriminate].
  assert (vs = v :: vs') by congruence. subst vs.
  cbn [forallb]. rewrite Hv. now apply IH in Hl.
Qed.

Lemma parse_array_keyed s v r :
  parse_array scan s = Some (v, r) -> keyed v = true.
Proof.
  unfold parse_array. intros H.
  destruct (skip_ws s) as [|c s1]; [discriminate|].
  destruct (c =? 93)%N.
  { assert (v = VList []) by congruence. now subst v. }
  destruct (array_loop scan (S (length s)) (c :: s1)) as [[vs r']|] eqn:Hl; [|discriminate].
  assert (v = VList vs) by congruence. subst v.
  cbn [keyed]. now apply array_loop_keyed in Hl.
Qed.

Lemma object_loop_keyed n s kvs r :
  object_loop scan n s = Some (kvs, r) ->
  forallb (fun kv : str * value => keyed (snd kv)) kvs = true.
Proof.
  revert s kvs r. induction n as [|n IH]; intros s kvs r H; [discriminate|].
  cbn [object_loop] in H.
  destruct (scanstring s) as [[key s1]|]; [|discriminate].
  destruct (skip_ws s1) as [|colon s2]; [discriminate|].
  destruct (colon =? 58)%N; [|discriminate].
  destruct (scan (skip_ws s2)) as [[v s3]|] eqn:Hv; [|discriminate].
  apply scan_keyed in Hv.
  destruct (skip_ws s3) as [|c s4]; [discriminate|].
  destruct (c =? 125)%N.
  { assert (kvs = [(key, v)]) by congruence. subst kvs. cbn [forallb snd].
    now rewrite Hv. }
  destruct (c =? 44)%N; [|discriminate].
  destruct (skip_ws s4) as [|q s5]; [discriminate|].
  destruct (q =? 34)%N; [|discriminate].
  destruct (object_loop scan n s5) as [[kvs' r']|] eqn:Hl; [|discriminate].
  assert (kvs = (key, v) :: kvs') by congruence. subst kvs.
  cbn [forallb snd]. rewrite Hv. now apply IH in Hl.
Qed.

Lemma parse_object_keyed s v r :
  parse_object scan s = Some (v, r) -> keyed v = true.
Proof.
  unfold parse_object. intros H.
  destruct (skip_ws s) as [|c s1]; [discriminate|].
  destruct (c =? 125)%N.
  { assert (v = VDict []) by congruence. now subst v. }
  destruct (c =? 34)%N; [|discriminate].
  destruct (object_loop scan (S (length s)) s1) as [[kvs r']|] eqn:Hl; [|discriminate].
  assert (v = VDict (dict_of_pairs kvs)) by congruence. subst v.
  apply dict_of_pairs_keyed. now apply object_loop_keyed in Hl.
Qed.

End Loops.

Lemma match_number_keyed s v r : match_number s = Some (v, r) -> keyed v = true.
Proof.
  unfold match_number.
  destruct (match_integer s) as [[integer s1]|]; [|discriminate].
  destruct (match_frac s1) as [frac s2]. destruct (match_exp s2) as [exp s3].
  destruct frac, exp; intros H; injection H as <- _; reflexivity.
Qed.

Ltac literal_keyed H :=
  match type of H with
  | Some (?x, _) = Some (?v, _) =>
      let E := fresh in assert (E : v = x) by congruence; rewrite E; reflexivity
  end.

(** Whatever the decoder returns, no [dict] in it has a key twice. *)
Lemma scan_once_keyed depth : forall s v r, scan_once depth s = Some (v, r) -> keyed v = true.
Proof.
  induction depth as [|d IH]; intros s v r H; [discriminate|].
  destruct s as [|c s1]; [discriminate|].
  cbn [scan_once] in H.
  destruct (c =? 34)%N.
  { destruct (scanstring s1) as [[t r']|]; [|discriminate]. literal_keyed H. }
  destruct (c =? 123)%N; [now apply (@parse_object_keyed (scan_once d) IH) in H|].
  destruct (c =? 91)%N; [now apply (@parse_array_keyed (scan_once d) IH) in H|].
  destruct (starts_with (u "null") (c :: s1)); [literal_keyed H|].
  destruct (starts_with (u "true") (c :: s1)); [literal_keyed H|].
  destruct (starts_with (u "false") (c :: s1)); [literal_keyed H|].
  destruct (match_number (c :: s1)) as [[v' r']|] eqn:Hn.
  { assert (v' = v) by congruence. subst v'. now apply match_number_keyed in Hn. }
  destruct (starts_with (u "NaN") (c :: s1)); [literal_keyed H|].
  destruct (starts_with (u "Infinity") (c :: s1)); [literal_keyed H|].
  destruct (starts_with (u "-Infinity") (c :: s1)); [literal_keyed H|].
  discriminate.
Qed.

Lemma json_loads_keyed (s : str) (v : value) : json_loads s = Ok v -> keyed v = true.
Proof.
  unfold json_loads.
  destruct (starts_with [65279%N] s); [discriminate|].
  destruct (scan_once (S (length s)) (skip_ws s)) as [[v' rest]|] eqn:Hs; [|discriminate].
  destruct (skip_ws rest); [|discriminate].
  intros H. assert (v' = v) by congruence. subst v'. now apply scan_once_keyed in Hs.
Qed.

(** Without floats, with well-formed strings and no key twice: plain. *)
Lemma textual_keyed_plain (v : value) :
  textual v = true -> keyed v = true -> plain v = true.
Proof.
  induction v as [| b | z | f | s | items IH | pairs IH] using value_ind_nested;
    cbn [textual keyed plain]; try (intros; assumption || reflexivity).
  - intros Ht Hk. rewrite forallb_forall in *. rewrite Forall_forall in IH.
    intros x Hx. apply IH; auto.
  - intros Ht Hk. apply andb_prop in Hk as [Hd Hk]. rewrite Hd. cbn [andb].
    rewrite forallb_forall in *. rewrite Forall_forall in IH.
    intros [k x] Hx. specialize (Ht _ Hx). specialize (Hk _ Hx). specialize (IH _ Hx).
    cbn [snd] in *. apply andb_prop in Ht as [Hw Ht]. rewrite Hw. cbn [andb].
    now apply IH.
Qed.

(** X7.  Encoding what was decoded loses nothing: for an object [v] that
    [json.loads] returned on some text, without floats and with
    well-formed strings, [json.loads(json.dumps(v))] is [v] again. *)
Theorem json_loads_dumps (s : str) (v : value) :
  json_loads s = Ok v ->
  textual v = true ->
  json_loads (json_dumps v) = Ok v.
Proof.
  intros Hloads Htext. apply plain_round_trip.
  apply textual_keyed_plain; [exact Htext|]. now apply json_loads_keyed in Hloads.
Qed.

End Decoded.


(** ** The form field on the wire *)

Section Ascii.
Context {FM : FloatModel}.

Lemma hex_digit_printable (n : N) : (n < 16)%N -> printable (hex_digit n) = true.
Proof.
  intros H. unfold printable, hex_digit.
  destruct (N.ltb_spec n 10); apply andb_true_intro; split; apply N.leb_le; lia.
Qed.

Lemma u_escape_printable (n : N) : forallb printable (u_escape n) = true.
Proof.
  unfold u_escape. cbn [forallb].
  rewrite !hex_digit_printable by (apply N.mod_lt; discriminate). reflexivity.
Qed.

Lemma escape_char_printable (c : char) : forallb printable (escape_char c) = true.
Proof.
  unfold escape_char.
  repeat match goal with
         | |- context [if (c =? ?k)%N then _ else _] =>
             destruct (c =? k)%N; [reflexivity|]
         end.
  destruct ((32 <=? c) && (c <=? 126))%N eqn:Hp.
  { cbn [forallb]. unfold printable. now rewrite Hp. }
  destruct (c <? 65536)%N.
  - apply u_escape_printable.
  - rewrite forallb_app, !u_escape_printable. reflexivity.
Qed.

(** An encoded string is printable ASCII, whatever the string holds. *)
Lemma encode_printable (s : str) : forallb printable (encode_basestring_ascii s) = true.
Proof.
  unfold encode_basestring_ascii. cbn [forallb]. change (printable DQ) with true.
  rewrite forallb_app. cbn [forallb andb]. change (printable DQ) with true.
  rewrite andb_true_r. induction s as [|c s IH]; [reflexivity|].
  cbn [flat_map]. now rewrite forallb_app, escape_char_printable, IH.
Qed.

Lemma join_printable (sep : str) (texts : list str) :
  forallb printable sep = true ->
  forallb (forallb printable) texts = true ->
  forallb printable (join sep texts) = true.
Proof.
  intros Hsep. induction texts as [|t texts IH]; [reflexivity|].
  cbn [forallb]. intros H. apply andb_prop in H as [Ht Hts].
  destruct texts as [|t2 texts]; [exact Ht|].
  rewrite join_cons2, !forallb_app, Ht, Hsep. now rewrite IH.
Qed.

Lemma int_repr_printable (z : Z) : forallb printable (int_repr z) = true.
Proof.
  assert (Hd : forall d, forallb printable (uint_codes d) = true)
    by (induction d; cbn; auto).
  rewrite int_repr_cases. destruct z; [reflexivity | apply Hd |].
  cbn [forallb]. now rewrite Hd.
Qed.

(** The text of an object without floats is printable ASCII. *)
Lemma json_dumps_printable (v : value) :
  plain v = true -> forallb printable (json_dumps v) = true.
Proof.
  induction v as [| b | z | f | s | items IH | pairs IH] using value_ind_nested;
    intros Hplain.
  - reflexivity.
  - destruct b; reflexivity.
  - apply int_repr_printable.
  - discriminate.
  - apply encode_printable.
  - cbn [json_dumps plain] in *. rewrite !forallb_app.
    rewrite join_printable; [reflexivity | reflexivity |].
    rewrite forallb_forall. intros t Ht. apply in_map_iff in Ht as (x & <- & Hx).
    rewrite Forall_forall in IH. apply (IH x Hx).
    rewrite forallb_forall in Hplain. now apply Hplain.
  - cbn [json_dumps plain] in *. apply andb_prop in Hplain as [_ Hplain].
    rewrite !forallb_app.
    rewrite join_printable; [reflexivity | reflexivity |].
    rewrite forallb_forall. intros t Ht. apply in_map_iff in Ht as ([k x] & <- & Hx).
    rewrite !forallb_app, encode_printable.
    rewrite Forall_forall in IH. specialize (IH _ Hx). cbn [snd] in IH.
    rewrite IH; [reflexivity|].
    rewrite forallb_forall in Hplain. specialize (Hplain _ Hx).
    now apply andb_prop in Hplain.
Qed.

Lemma printable_well_formed (s : str) :
  forallb printable s = true -> well_formed s = true.
Proof.
  induction s as [|c s IH]; [reflexivity|].
  cbn [forallb well_formed]. intros H. apply andb_prop in H as [Hc Hs].
  rewrite (IH Hs), andb_true_r.
  unfold printable in Hc. apply andb_prop in Hc as [_ Hc]. apply N.leb_le in Hc.
  apply andb_true_intro. split; [apply N.leb_le; lia|].
  apply negb_true_iff. apply andb_false_intro1.
  unfold is_high_surrogate. apply andb_false_intro1. apply N.leb_gt. lia.
Qed.

End Ascii.

Section FormField.
Context {FM : FloatModel} {ML : Markup}.

(** X6.  The value of [f.req] is printable ASCII (space to tilde),
    whatever the token holds: everything else is escaped, once or twice. *)
Theorem f_req_is_printable_ascii (markup : str) payload :
  form_data_of markup = Ok payload ->
  exists f_req,
    payload = [(u "f.req", f_req)] /\ forallb printable f_req = true.
Proof.
  unfold form_data_of, payload_of.
  destruct (data_of markup) as [data|]; [|discriminate]. cbn [bind_result].
  destruct (obj_of data) as [obj|]; [|discriminate]. cbn [bind_result].
  destruct (reshape_obj obj) as [inner|]; [|discriminate]. cbn [bind_result].
  intros H. injection H as <-.
  exists (json_dumps (envelope (json_dumps inner))). split; [reflexivity|].
  rewrite json_dumps_envelope, !forallb_app, encode_printable. reflexivity.
Qed.

Lemma forallb_firstn_skipn (A : Type) (f : A -> bool) (n : nat) (l : list A) :
  forallb f l = true ->
  forallb f (firstn n l) = true /\ forallb f (skipn n l) = true.
Proof.
  intros H. rewrite <- (firstn_skipn n l), forallb_app in H.
  now apply andb_prop in H.
Qed.

Lemma plain_reshape (obj : list value) :
  forallb plain obj = true -> forallb plain (reshape obj) = true.
Proof.
  intros H. rewrite reshape_firstn_skipn, forallb_app.
  apply andb_true_intro. split.
  - now apply forallb_firstn_skipn.
  - now apply forallb_firstn_skipn.
Qed.

(** The double encoding is undone by decoding twice. *)
Lemma envelope_round_trip (items : list value) :
  forallb plain items = true ->
  let innerPayload := json_dumps (VList items) in
  json_loads (json_dumps (envelope innerPayload)) = Ok (envelope innerPayload) /\
  json_loads innerPayload = Ok (VList items).
Proof.
  intros Hplain innerPayload. split.
  - apply plain_round_trip. unfold envelope. cbn [plain forallb].
    rewrite (printable_well_formed innerPayload) by (now apply json_dumps_printable).
    reflexivity.
  - now apply plain_round_trip.
Qed.

(** A token decoded from the attribute value, made of objects without
    floats and with well-formed strings, is a list of plain objects. *)
Lemma decoded_token_plain (data : option str) (obj : list value) :
  obj_of data = Ok (VList obj) ->
  forallb textual obj = true ->
  forallb plain obj = true.
Proof.
  intros Hobj Htext. destruct data as [d|]; [|discriminate].
  cbn [obj_of] in Hobj. apply json_loads_keyed in Hobj.
  change (plain (VList obj) = true). now apply textual_keyed_plain.
Qed.

(** X8.  The double encoding loses nothing: for a token [obj] decoded
    from the attribute value, a list of objects without floats and with
    well-formed strings, the form data is built, decoding the value of
    [f.req] gives the envelope back, and decoding its second field gives
    [obj[:-6] + obj[-2:]] back. *)
Theorem f_req_decodes_back (data : option str) (obj : list value) :
  obj_of data = Ok (VList obj) ->
  forallb textual obj = true ->
  let innerPayload := json_dumps (VList (reshape obj)) in
  let f_req := json_dumps (envelope innerPayload) in
  bind_result (obj_of data) payload_of = Ok [(u "f.req", f_req)] /\
  json_loads f_req = Ok (envelope innerPayload) /\
  json_loads innerPayload = Ok (VList (reshape obj)).
Proof.
  intros Hobj Htext innerPayload f_req.
  split; [now rewrite Hobj|].
  apply envelope_round_trip. apply plain_reshape.
  now apply decoded_token_plain with (data := data).
Qed.

(** X9.  Two tokens decoded from attribute values, lists of objects
    without floats and with well-formed strings, are given the same value
    of [f.req] only when their inner payload sequences are the same. *)
Theorem f_req_tells_payloads_apart (data1 data2 : option str) (obj1 obj2 : list value) :
  obj_of data1 = Ok (VList obj1) ->
  obj_of data2 = Ok (VList obj2) ->
  forallb textual obj1 = true -> forallb textual obj2 = true ->
  bind_result (obj_of data1) payload_of = bind_result (obj_of data2) payload_of ->
  reshape obj1 = reshape obj2.
Proof.
  intros Hobj1 Hobj2 T1 T2.
  pose proof (decoded_token_plain data1 Hobj1 T1) as H1.
  pose proof (decoded_token_plain data2 Hobj2 T2) as H2.
  rewrite Hobj1, Hobj2. cbn [bind_result]. intros Heq.
  destruct (@envelope_round_trip (reshape obj1) (plain_reshape obj1 H1)) as (L1 & I1).
  destruct (@envelope_round_trip (reshape obj2) (plain_reshape obj2 H2)) as (L2 & I2).
  assert (Hf : json_dumps (envelope (json_dumps (VList (reshape obj1)))) =
               json_dumps (envelope (json_dumps (VList (reshape obj2)))))
    by (cbn [payload_of reshape_obj bind_result] in Heq; congruence).
  assert (He : envelope (json_dumps (VList (reshape obj1))) =
               envelope (json_dumps (VList (reshape obj2))))
    by congruence.
  assert (Hi : json_dumps (VList (reshape obj1)) = json_dumps (VList (reshape obj2)))
    by (unfold envelope in He; congruence).
  congruence.
Qed.

End FormField.

(** ** Tokens that carry the marker *)

Section MarkedToken.
Context {FM : FloatModel} {ML : Markup}.

Lemma rewrite_token_marked (rest : str) :
  rewrite_token (TOKEN_PREFIX ++ rest) = GARTURLREQ ++ rewrite_token rest.
Proof.
  unfold rewrite_token, str_replace.
  change (replace_scan TOKEN_PREFIX GARTURLREQ 0 (TOKEN_PREFIX ++ rest) =
          GARTURLREQ ++ replace_scan TOKEN_PREFIX GARTURLREQ 0 rest).
  apply replace_scan_hit. discriminate.
Qed.

(** A text that opens with [["garturlreq",] decodes, if at all, to a
    list with that tag in front. *)
Lemma json_loads_tagged (t : str) (obj : value) :
  json_loads (GARTURLREQ ++ t) = Ok obj ->
  exists items, obj = VList (VStr (u "garturlreq") :: items).
Proof.
  unfold json_loads.
  change (starts_with [65279%N] (GARTURLREQ ++ t)) with false. cbv beta iota.
  change (skip_ws (GARTURLREQ ++ t)) with (GARTURLREQ ++ t).
  generalize (length (GARTURLREQ ++ t)) as d. intros d.
  change (scan_once (S d) (GARTURLREQ ++ t))
    with (parse_array (scan_once d) (tl GARTURLREQ ++ t)).
  unfold parse_array.
  change (skip_ws (tl GARTURLREQ ++ t)) with (tl GARTURLREQ ++ t).
  change (tl GARTURLREQ ++ t) with (34%N :: (tl (tl GARTURLREQ) ++ t)).
  change (34 =? 93)%N with false. cbv beta iota.
  generalize (length (34%N :: tl (tl GARTURLREQ) ++ t)) as n. intros n.
  cbn [array_loop].
  destruct d as [|d]; [discriminate|].
  change (scan_once (S d) (34%N :: tl (tl GARTURLREQ) ++ t))
    with (Some (VStr (u "garturlreq"), 44%N :: t)).
  cbv beta iota. change (skip_ws (44%N :: t)) with (44%N :: t).
  cbv beta iota. change (44 =? 93)%N with false. change (44 =? 44)%N with true.
  cbv beta iota.
  change (34 =? 93)%N with false. cbv beta iota.
  match goal with
  | |- context [array_loop ?a ?b ?c] => destruct (array_loop a b c) as [[vs r]|]
  end; [|discriminate].
  destruct (skip_ws r); [|discriminate].
  intros H. injection H as <-. eauto.
Qed.

(** X10.  An attribute value that starts with [%.@.] and decodes after
    the rewrite gives a list with ["garturlreq"] in front: line 12 cannot
    raise on it, and the form data is built. *)
Theorem marked_token_is_a_tagged_list (rest : str) (obj : value) :
  obj_of (Some (TOKEN_PREFIX ++ rest)) = Ok obj ->
  exists items,
    obj = VList (VStr (u "garturlreq") :: items) /\
    payload_of obj =
      Ok [(u "f.req",
           json_dumps (envelope (json_dumps
             (VList (reshape (VStr (u "garturlreq") :: items))))))].
Proof.
  cbn [obj_of]. rewrite rewrite_token_marked. intros H.
  apply json_loads_tagged in H as [items ->].
  exists items. split; reflexivity.
Qed.

End MarkedToken.

(** ** Concrete runs beyond the claims *)

Lemma printed_value_shape_witness :
  exists row more array_string,
    json_loads (FM := TextFloats) (strip_xssi answer_body) =
      Ok (VList (VList row :: more)) /\
    nth_error row 2 = Some (VStr array_string) /\
    ((exists inner,
        json_loads array_string = Ok (VList inner) /\
        nth_error inner 1 = Some (VStr article)) \/
     (exists t c,
        json_loads array_string = Ok (VStr t) /\
        nth_error t 1 = Some c /\ VStr article = VStr [c])).
Proof.
  apply (@printed_value_shape TextFloats answer_body (VStr article)).
  vm_compute. reflexivity.
Defined.

Lemma prefix_and_blanks_are_optional_witness :
  article_url_of (FM := TextFloats) (XSSI_PREFIX ++ [NL; NL] ++ tl nested_rest) =
  article_url_of (tl nested_rest).
Proof.
  apply (@prefix_and_blanks_are_optional TextFloats [NL; NL] (tl nested_rest)).
  reflexivity.
Defined.

Lemma f_req_is_printable_ascii_witness :
  exists f_req,
    [(u "f.req", scenario_f_req)] = [(u "f.req", f_req)] /\
    forallb printable f_req = true.
Proof.
  apply (@f_req_is_printable_ascii TextFloats PlainMarkup page_body).
  vm_compute. reflexivity.
Defined.

Lemma json_loads_dumps_witness :
  json_loads (FM := TextFloats) (json_dumps (VList scenario_obj)) =
  Ok (VList scenario_obj).
Proof.
  apply (@json_loads_dumps TextFloats (rewrite_token page_data) (VList scenario_obj));
    vm_compute; reflexivity.
Defined.

Lemma f_req_decodes_back_witness :
  bind_result (obj_of (FM := TextFloats) (Some page_data)) payload_of =
    Ok [(u "f.req", json_dumps (envelope (json_dumps (VList (reshape scenario_obj)))))] /\
  json_loads (json_dumps (envelope (json_dumps (VList (reshape scenario_obj))))) =
    Ok (envelope (json_dumps (VList (reshape scenario_obj)))) /\
  json_loads (json_dumps (VList (reshape scenario_obj))) =
    Ok (VList (reshape scenario_obj)).
Proof.
  apply (@f_req_decodes_back TextFloats (Some page_data) scenario_obj);
    vm_compute; reflexivity.
Defined.

Lemma f_req_tells_payloads_apart_witness :
  reshape (A := @value TextFloats) scenario_obj =
  reshape [VStr (u "garturlreq"); VStr (u "id1"); VInt 2;
           VNone; VNone; VNone; VNone; VInt 7; VInt 8].
Proof.
  apply (@f_req_tells_payloads_apart TextFloats
           (Some page_data)
           (Some (u "%.@." ++ quoted "id1" ++ u ",2,null,null,null,null,7,8]")));
    vm_compute; reflexivity.
Defined.

Lemma marked_token_is_a_tagged_list_witness :
  exists items,
    VList scenario_obj = VList (VStr (u "garturlreq") :: items) /\
    payload_of (FM := TextFloats) (VList scenario_obj) =
      Ok [(u "f.req",
           json_dumps (envelope (json_dumps
             (VList (reshape (VStr (u "garturlreq") :: items))))))].
Proof.
  apply (@marked_token_is_a_tagged_list TextFloats
           (quoted "id1" ++ u ",2,3,4,5,6,7,8]") (VList scenario_obj)).
  vm_compute. reflexivity.
Defined.
